(** * giveawaybot: the giveaway lifecycle of [giveawaybot.py]

    A shallow embedding of the bot's store access, join button, start
    command, expiry scanner and start-up code, and the properties of the
    giveaway lifecycle proved (or refuted) about them.

    Conventions of the model:
    - Python [int]s, Discord snowflakes and timestamps (microseconds, UTC)
      are [Z];
    - the two PostgreSQL tables are a [gmap] keyed by the primary key and a
      [gset] of (giveaway_id, user_id) pairs;
    - a coroutine is a function in the monad [M]: it threads the [World]
      (store, log of performed effects, random generator) and either
      returns or raises a Python exception;
    - Discord is an external system: its answers are given by a [Discord]
      oracle, its successful calls are appended to the log;
    - every [conn.execute]/[conn.fetchrow] runs outside a transaction block,
      so it is committed when it returns; a statement fails only by a
      constraint or a column type of the schema (the connection itself is
      taken to work);
    - a handler or a scanner run is followed from its start to its return
      or exception without another coroutine in between. *)

From stdpp Require Import gmap strings list fin_maps pretty.
From Stdlib Require Import ZArith Lia DecimalString.

Open Scope Z_scope.

(** ** Data model *)

(** A row of [giveaways]; the primary key [id] is the key of the map. *)
Record Giveaway := mkGiveaway {
  message_id : Z;
  channel_id : Z;
  end_time : Z;
  prize : string;
  winners_count : Z;
  host_id : Z;
  ended : bool
}.

Global Instance Giveaway_eq_dec : EqDecision Giveaway.
Proof. solve_decision. Defined.

(** Modelled from the spec: the table declarations are not part of the
    source (only the statements that use them are). Section 6 of the spec
    gives [giveaways(id PK, ..., ended bool default false)] with a
    store-generated id, and [participants(giveaway_id FK, user_id,
    unique(giveaway_id, user_id))]. *)
Record Store := mkStore {
  giveaways : gmap Z Giveaway;
  participants : gset (Z * Z);
  giveaways_id_seq : Z
}.

Inductive Color := green | blurple | orange | red.

Record Field := mkField {
  name : string;
  value : string;
  inline : bool
}.

Record Embed := mkEmbed {
  title : string;
  color : Color;
  fields : list Field;
  footer : option string;
  timestamp : option Z
}.

(** The two ways the bot edits an announcement. *)
Inductive Edit :=
| SetEmbedClearView (e : Embed)     (* msg.edit(embed=embed, view=None) *)
| SetView (giveaway_id : Z).        (* msg.edit(view=GiveawayView(id)) *)

(** Effects the bot has performed, oldest first. *)
Inductive Effect :=
| InteractionResponse (text : string)
| ChannelSend (channel : Z) (e : Embed) (msg : Z)
| MessageEdit (msg : Z) (ed : Edit)
| DbInsertGiveaway (id : Z) (g : Giveaway)
| DbInsertParticipant (giveaway_id user_id : Z)
| DbSetEnded (id : Z).

Inductive Exn :=
| ValueError
| OverflowError
| NotFound
| HTTPException
| UniqueViolationError
| ForeignKeyViolationError
| DataError.

(** What Discord answers. [get_channel] is the bot's channel cache,
    [fetch_message] and [edit_message] tell whether the call returns or
    raises, [channel_send] gives the id of the posted message. *)
Record Discord := mkDiscord {
  get_channel : Z → bool;
  fetch_message : Z → Z → bool;
  edit_message : Z → Edit → bool;
  channel_send : Z → Embed → option Z
}.

(** [entropy] is the sequence of raw values the generator of the [random]
    module will deliver, [draws] how many of them were consumed. *)
Record World := mkWorld {
  db : Store;
  trace : list Effect;
  entropy : nat → nat;
  draws : nat
}.

Definition with_db (s : Store) (w : World) : World :=
  mkWorld s (trace w) (entropy w) (draws w).

Definition with_effect (e : Effect) (w : World) : World :=
  mkWorld (db w) (trace w ++ [e]) (entropy w) (draws w).

(** ** Coroutines: state and exceptions *)

Definition M (A : Type) : Type := World → (Exn + A) * World.

Definition ret {A} (a : A) : M A := λ w, (inr a, w).

Definition bind {A B} (c : M A) (k : A → M B) : M B :=
  λ w, match c w with
       | (inr a, w') => k a w'
       | (inl e, w') => (inl e, w')
       end.

Definition raise {A} (e : Exn) : M A := λ w, (inl e, w).

(** [try: c / except: return None] *)
Definition try_ {A} (c : M A) : M (option A) :=
  λ w, match c w with
       | (inr a, w') => (inr (Some a), w')
       | (inl _, w') => (inr None, w')
       end.

Definition get_db : M Store := λ w, (inr (db w), w).
Definition put_db (s : Store) : M unit := λ w, (inr tt, with_db s w).
Definition emit (e : Effect) : M unit := λ w, (inr tt, with_effect e w).

Notation "'do' x <- c1 ; c2" := (bind c1 (λ x, c2))
  (at level 10, x name, c1 at level 100, c2 at level 200).
Notation "'do_' c1 ; c2" := (bind c1 (λ _, c2))
  (at level 10, c1 at level 100, c2 at level 200).

(** [for x in xs: body(x)] *)
Fixpoint for_each {A} (xs : list A) (body : A → M unit) : M unit :=
  match xs with
  | [] => ret tt
  | x :: xs' => do_ body x; for_each xs' body
  end.

(** ** Store access *)

Definition set_ended (g : Giveaway) : Giveaway :=
  mkGiveaway (message_id g) (channel_id g) (end_time g) (prize g)
             (winners_count g) (host_id g) true.

(** [INSERT INTO participants (giveaway_id, user_id) VALUES ($1, $2)
    ON CONFLICT DO NOTHING]: a row that would violate the unique pair is
    left out; a new row must reference a stored giveaway. *)
Definition insert_participant (giveaway_id user_id : Z) : M unit :=
  do s <- get_db;
  if bool_decide ((giveaway_id, user_id) ∈ participants s) then ret tt
  else if bool_decide (is_Some (giveaways s !! giveaway_id)) then
    do_ put_db (mkStore (giveaways s)
                        ({[ (giveaway_id, user_id) ]} ∪ participants s)
                        (giveaways_id_seq s));
    emit (DbInsertParticipant giveaway_id user_id)
  else raise ForeignKeyViolationError.

(** Modelled from the spec: [winners_count int] of the schema is a 32-bit
    integer column; the other columns are given no numeric type there. *)
Definition int32_min : Z := -2147483648.
Definition int32_max : Z := 2147483647.

(** [INSERT INTO giveaways (message_id, channel_id, end_time, prize,
    winners_count, host_id) VALUES (...) RETURNING id]: an argument that does
    not fit its column is refused by the driver with [DataError] before the
    statement runs; otherwise the id comes from the sequence (which advances
    even when the insert fails) and [ended] takes its default. *)
Definition insert_giveaway (msg channel end_t : Z) (item : string)
    (winners host : Z) : M Z :=
  if bool_decide (int32_min <= winners <= int32_max) then
    do s <- get_db;
    let id := giveaways_id_seq s in
    match giveaways s !! id with
    | Some _ =>
        do_ put_db (mkStore (giveaways s) (participants s) (id + 1));
        raise UniqueViolationError
    | None =>
        let g := mkGiveaway msg channel end_t item winners host false in
        do_ put_db (mkStore (<[id := g]> (giveaways s)) (participants s) (id + 1));
        do_ emit (DbInsertGiveaway id g);
        ret id
    end
  else raise DataError.

(** [SELECT * FROM giveaways WHERE end_time <= NOW() AND ended = FALSE] *)
Definition select_due (s : Store) (now : Z) : list (Z * Giveaway) :=
  filter (λ r, end_time r.2 <= now ∧ ended r.2 = false)
         (map_to_list (giveaways s)).

(** [SELECT user_id FROM participants WHERE giveaway_id = $1], followed by
    [[p["user_id"] for p in participants]] *)
Definition select_user_ids (s : Store) (giveaway_id : Z) : list Z :=
  (filter (λ p, p.1 = giveaway_id) (elements (participants s))).*2.

(** [UPDATE giveaways SET ended = TRUE WHERE id = $1] *)
Definition mark_ended (id : Z) (s : Store) : Store :=
  mkStore (alter set_ended id (giveaways s)) (participants s)
          (giveaways_id_seq s).

Definition update_ended (id : Z) : M unit :=
  do s <- get_db;
  do_ put_db (mark_ended id s);
  emit (DbSetEnded id).

(** ** The join button *)

(** [GiveawayView.enter_button] for the view bound to [giveaway_id],
    pressed by [user_id]. *)
Definition enter_button (giveaway_id user_id : Z) : M unit :=
  do_ insert_participant giveaway_id user_id;
  emit (InteractionResponse "✅ You're in!").

(** ** random.sample *)

(** [randbelow(n)] of the generator, for [n > 0]. *)
Definition randbelow (n : nat) : M nat :=
  λ w, (inr (entropy w (draws w) `mod` n)%nat,
        mkWorld (db w) (trace w) (entropy w) (S (draws w))).

(** The selection loop of [random.sample] over the pool:
    [j = randbelow(n - i); result[i] = pool[j]; pool[j] = pool[n - i - 1]].
    The live part of the pool, [pool[0 : n - i]], is the list carried here.
    This is the branch CPython takes for populations of up to 21 elements
    (more when [k > 5], and always when [k = n]). For larger populations it
    draws positions and rejects repeated ones instead, which consumes other
    random values and returns other winners; both branches return the
    elements of [k] distinct positions of the population, which is all the
    statements below use of the choice. *)
Fixpoint sample_pool (pool : list Z) (k : nat) : M (list Z) :=
  match k with
  | O => ret []
  | S k' =>
      do j <- randbelow (length pool);
      let last := (length pool - 1)%nat in
      let pool' := take last (<[j := pool !!! last]> pool) in
      do rest <- sample_pool pool' k';
      ret (pool !!! j :: rest)
  end.

(** [random.sample(population, k)]: raises [ValueError] unless
    [0 <= k <= len(population)]. *)
Definition random_sample (population : list Z) (k : Z) : M (list Z) :=
  if bool_decide (0 <= k <= Z.of_nat (length population))
  then sample_pool population (Z.to_nat k)
  else raise ValueError.

(** ** The expiry scanner *)

(** [", ".join(f"<@{uid}>" for uid in winners)] *)
Definition mentions (winners : list Z) : string :=
  String.concat ", " ((λ uid, "<@" +:+ pretty uid +:+ ">") <$> winners).

Definition not_enough : Field :=
  mkField "❌ Result" "Not enough participants" false.

Definition winners_field (winners : list Z) : Field :=
  mkField "🏆 Winner(s)" (mentions winners) false.

(** Lines 182-187: the result field of the closing embed. *)
Definition result_field (user_ids : list Z) (winners_count : Z) : M Field :=
  if bool_decide (Z.of_nat (length user_ids) < winners_count)
  then ret not_enough
  else do winners <- random_sample user_ids winners_count;
       ret (winners_field winners).

(** [prize or "Unknown"] *)
Definition prize_or_unknown (p : string) : string :=
  if bool_decide (p = "") then "Unknown" else p.

Definition ended_embed (p : string) (result : Field) : Embed :=
  mkEmbed "🎉 Giveaway Ended!" red
          [mkField "🎁 Prize" (prize_or_unknown p) false; result]
          (Some "Ended via auto-check") None.

(** [await channel.fetch_message(message_id)] *)
Definition do_fetch_message (d : Discord) (channel msg : Z) : M Z :=
  if fetch_message d channel msg then ret msg else raise NotFound.

(** [await msg.edit(...)] *)
Definition do_edit (d : Discord) (msg : Z) (ed : Edit) : M unit :=
  if edit_message d msg ed then emit (MessageEdit msg ed)
  else raise HTTPException.

(** The body of the loop of [check_giveaways] for one fetched row. *)
Definition process_row (d : Discord) (r : Z * Giveaway) : M unit :=
  let giveaway_id := r.1 in
  let row := r.2 in
  do s <- get_db;
  let user_ids := select_user_ids s giveaway_id in
  if negb (get_channel d (channel_id row)) then ret tt
  else
    do fetched <- try_ (do_fetch_message d (channel_id row) (message_id row));
    match fetched with
    | None => ret tt
    | Some msg =>
        do result <- result_field user_ids (winners_count row);
        do_ do_edit d msg (SetEmbedClearView (ended_embed (prize row) result));
        update_ended giveaway_id
    end.

(** [check_giveaways], one run of the 30 s loop at store time [now]. *)
Definition check_giveaways (d : Discord) (now : Z) : M unit :=
  do s <- get_db;
  for_each (select_due s now) (process_row d).

(** ** The start command *)

Section Commands.

(** [datetime.strftime] with the format of the "Ends" field. *)
Variable strftime : Z → string.

(** Timestamps count microseconds from the epoch; [datetime] covers the
    years 1 to 9999, [timedelta] at most 999999999 days either way. *)
Definition datetime_min : Z := -62135596800000000.
Definition datetime_max : Z := 253402300799999999.

(** [timedelta(minutes=duration)] *)
Definition timedelta_minutes (duration : Z) : M Z :=
  if bool_decide (-999999999 <= duration `div` 1440 <= 999999999)
  then ret (duration * 60000000)
  else raise OverflowError.

(** [datetime + timedelta] *)
Definition datetime_add (t delta : Z) : M Z :=
  if bool_decide (datetime_min <= t + delta <= datetime_max)
  then ret (t + delta)
  else raise OverflowError.

Definition started_embed (title_ item : string) (winners end_t : Z)
    (sponsor display_name : string) (now : Z) : Embed :=
  mkEmbed ("🎉 " +:+ title_ +:+ " 🎉") blurple
          [mkField "🎁 Item" item false;
           mkField "🏆 Winners" (pretty winners) true;
           mkField "🕒 Ends" (strftime end_t) true;
           mkField "👤 Hosted by" sponsor false]
          (Some ("Started by " +:+ display_name)) (Some now).

(** [await channel.send(embed=embed)] *)
Definition do_send (d : Discord) (channel : Z) (e : Embed) : M Z :=
  match channel_send d channel e with
  | Some msg => do_ emit (ChannelSend channel e msg); ret msg
  | None => raise HTTPException
  end.

(** [epicgiveaway], invoked at time [now] by [user] (shown as
    [display_name]) after the role check of the command tree passed. *)
Definition epicgiveaway (d : Discord) (now user : Z) (display_name : string)
    (title_ sponsor : string) (duration : Z) (item : string)
    (winners channel : Z) : M unit :=
  do_ emit (InteractionResponse
              ("🎉 Giveaway started in <#" +:+ pretty channel +:+ ">!"));
  do delta <- timedelta_minutes duration;
  do end_t <- datetime_add now delta;
  let embed := started_embed title_ item winners end_t sponsor display_name now in
  do msg <- do_send d channel embed;
  do id <- insert_giveaway msg channel end_t item winners user;
  do_edit d msg (SetView id).

(** ** Operations of the running bot, one at a time *)

Inductive Op :=
| Start (d : Discord) (now user : Z) (display_name title_ sponsor : string)
        (duration : Z) (item : string) (winners channel : Z)
| Enter (giveaway_id user_id : Z)
| Scan (d : Discord) (now : Z).

Definition run_op (op : Op) : M unit :=
  match op with
  | Start d now user display_name title_ sponsor duration item winners channel =>
      epicgiveaway d now user display_name title_ sponsor duration item
                   winners channel
  | Enter giveaway_id user_id => enter_button giveaway_id user_id
  | Scan d now => check_giveaways d now
  end.

(** The world an operation leaves behind, whether it returned or raised:
    what was committed before the exception stays committed. (The library
    logs the exception of a command or button handler and goes on; it
    stops a task loop whose body raised, so sequences with a [Scan] after
    a failed one cover more than the bot can do.) *)
Definition step (w : World) (op : Op) : World := (run_op op w).2.

Definition run (ops : list Op) (w : World) : World := foldl step w ops.

End Commands.

(** ** Start-up *)

Section Startup.

(** [int(s)] for a string [s]: the number, or [None] for [ValueError]. *)
Variable py_int : string → option Z.

Record Environ := mkEnviron {
  SERVER_NAME : option string;
  BOT_TOKEN : option string;
  DATABASE_URL : option string;
  STATUS_CHANNEL_ID : option string;
  UPTIME_MSG_ID : option string
}.

(** What the gateway and the database server answer during start-up. *)
Record Gateway := mkGateway {
  login_ok : bool;
  bot_user : string;
  pool_ok : bool;
  synced : string + nat
}.

Inductive Action :=
| Print (s : string)
| SysExit (status : option Z)     (* exit() and exit(n) *)
| Uncaught (e : Exn)              (* traceback; the interpreter exits with 1 *)
| BotRun (token : string)         (* bot.run(TOKEN) *)
| CreatePool (dsn : option string)
| ChangePresence (game : string)
| TreeSync
| StartLoop (task : string).

Definition is_network (a : Action) : bool :=
  match a with
  | BotRun _ | CreatePool _ | ChangePresence _ | TreeSync => true
  | _ => false
  end.

(** The exit status of the process after a terminating action. *)
Definition exit_status (a : Action) : option Z :=
  match a with
  | SysExit None => Some 0
  | SysExit (Some n) => Some n
  | Uncaught _ => Some 1
  | _ => None
  end.

(** [int(os.getenv(name, 0))] *)
Definition getenv_int (v : option string) : Exn + Z :=
  match v with
  | None => inr 0
  | Some s => match py_int s with Some n => inr n | None => inl ValueError end
  end.

(** [not TOKEN] *)
Definition not_ (v : option string) : bool :=
  match v with
  | None => true
  | Some s => bool_decide (s = "")
  end.

(** [on_ready]; an exception of [create_pool] ends the handler. *)
Definition on_ready (env : Environ) (gw : Gateway) : list Action :=
  CreatePool (DATABASE_URL env) ::
  if pool_ok gw then
    [Print "✅ Connected to PostgreSQL";
     Print ("✅ Logged in as " +:+ bot_user gw);
     ChangePresence "Coded by NotTheRealEpic";
     TreeSync;
     Print (match synced gw with
            | inr n => "🔁 Synced " +:+ pretty n +:+ " commands."
            | inl e => "⚠️ Sync failed: " +:+ e
            end);
     StartLoop "update_uptime";
     StartLoop "check_giveaways"]
  else [].

(** The module run as a script: lines 21-29 and 217-218, then [on_ready]
    once the gateway is ready. *)
Definition main (env : Environ) (gw : Gateway) : list Action :=
  match getenv_int (STATUS_CHANNEL_ID env) with
  | inl e => [Uncaught e]
  | inr _ =>
      match getenv_int (UPTIME_MSG_ID env) with
      | inl e => [Uncaught e]
      | inr _ =>
          if not_ (BOT_TOKEN env) then
            [Print "❌ BOT TOKEN missing in environment variables!";
             SysExit None]
          else
            BotRun (default "" (BOT_TOKEN env)) ::
            if login_ok gw then on_ready env gw else []
      end
  end.

End Startup.

(** ** Auxiliary notions for the statements *)

(** The world after a row was closed with [result]: the announcement
    rewritten, then the flag committed. *)
Definition closed (id : Z) (row : Giveaway) (result : Field) (w : World) : World :=
  mkWorld (mark_ended id (db w))
          (trace w ++ [MessageEdit (message_id row)
                         (SetEmbedClearView (ended_embed (prize row) result));
                       DbSetEnded id])
          (entropy w) (draws w).

(** [s'] differs from [s] at most by [ended = TRUE] on rows whose id is in
    [ids]. *)
Definition only_ended (ids : list Z) (s s' : Store) : Prop :=
  participants s' = participants s ∧
  giveaways_id_seq s' = giveaways_id_seq s ∧
  ∀ id, giveaways s' !! id = giveaways s !! id ∨
        (id ∈ ids ∧ giveaways s' !! id = set_ended <$> giveaways s !! id).

(** Number of rows of [participants] holding the pair. *)
Definition participant_rows (s : Store) (giveaway_id user_id : Z) : nat :=
  length (filter (λ p, p = (giveaway_id, user_id)) (elements (participants s))).

Definition is_start (op : Op) : Prop :=
  match op with Start _ _ _ _ _ _ _ _ _ _ => True | _ => False end.

Definition is_scan (op : Op) : Prop :=
  match op with Scan _ _ => True | _ => False end.

(** The log entries of closed rows: each rewrite with its commit. *)
Definition closings (cs : list (Z * Z * Embed)) : list Effect :=
  cs ≫= λ c, [MessageEdit c.1.1 (SetEmbedClearView c.2); DbSetEnded c.1.2].

Definition terminates (a : Action) : Prop := is_Some (exit_status a).

(** ** Concrete situations *)

Module Examples.

Definition discord_ok : Discord :=
  mkDiscord (λ _, true) (λ _ _, true) (λ _ _, true)
            (λ channel _, Some (channel + 1000)).

(** Every call succeeds, except that editing message [msg] raises. *)
Definition discord_edit_fails (msg : Z) : Discord :=
  mkDiscord (λ _, true) (λ _ _, true) (λ m _, bool_decide (m ≠ msg))
            (λ channel _, Some (channel + 1000)).

Definition nitro : Giveaway := mkGiveaway 1010 10 60000000 "Nitro" 2 50 false.
Definition skin : Giveaway := mkGiveaway 1011 11 60000000 "Skin" 1 50 false.
Definition key : Giveaway := mkGiveaway 1012 12 60000000 "Key" (-1) 50 false.

Definition seed (n : nat) : nat := (7 * n + 3)%nat.

(** Two giveaways, three entrants for the first and one for the second. *)
Definition two_due : World :=
  mkWorld (mkStore (<[1 := nitro]> (<[2 := skin]> ∅))
                   ({[ (1, 100) ]} ∪ {[ (1, 101) ]} ∪ {[ (1, 102) ]} ∪ {[ (2, 100) ]})
                   3)
          [] seed 0.

(** One giveaway that asks for -1 winners, nobody entered. *)
Definition negative : World :=
  mkWorld (mkStore {[ 1 := key ]} ∅ 2) [] seed 0.

Definition empty : World := mkWorld (mkStore ∅ ∅ 1) [] seed 0.

Definition show_time (t : Z) : string := pretty t.

(** Decimal numerals, a part of what [int] accepts. *)
Definition decimal (s : string) : option Z :=
  Z.of_int <$> NilZero.int_of_string s.

Definition no_token : Environ :=
  mkEnviron None None (Some "postgres://db") None None.

Definition no_database_url : Environ :=
  mkEnviron None (Some "token") None (Some "42") None.

Definition gateway_ok : Gateway := mkGateway true "bot#0001" true (inr 2%nat).

End Examples.

(** ** The uptime display *)

(** A [timedelta], normalised as Python keeps it:
    [0 <= seconds < 86400] and [0 <= microseconds < 1000000]. *)
Record Timedelta := mkTimedelta {
  days : Z;
  seconds : Z;
  microseconds : Z
}.

(** [b - a] for two datetimes. *)
Definition datetime_sub (b a : Z) : Timedelta :=
  let us := b - a in
  mkTimedelta (us `div` 86400000000)
              ((us `mod` 86400000000) `div` 1000000)
              (us `mod` 1000000).

(** [divmod(a, b)] *)
Definition divmod (a b : Z) : Z * Z := (a `div` b, a `mod` b).

(** [f"{n:02}"]: at least two characters, filled with a zero. *)
Definition fmt02 (n : Z) : string :=
  if bool_decide (0 <= n < 10) then "0" +:+ pretty n else pretty n.

(** The four numbers [format_uptime] prints. *)
Definition uptime_parts (delta : Timedelta) : Z * Z * Z * Z :=
  let '(hours, rem) := divmod (seconds delta) 3600 in
  let '(minutes, secs) := divmod rem 60 in
  (days delta, hours, minutes, secs).

(** [format_uptime] *)
Definition format_uptime (delta : Timedelta) : string :=
  let '(d, hours, minutes, secs) := uptime_parts delta in
  fmt02 d +:+ "d:" +:+ fmt02 hours +:+ "h:" +:+ fmt02 minutes +:+ "m:" +:+
  fmt02 secs +:+ "s".

(** [SERVER_NAME], [STATUS_CHANNEL_ID] and [UPTIME_MSG_ID] once loaded. *)
Record Config := mkConfig {
  server_name : string;
  status_channel_id : Z;
  uptime_msg_id : Z
}.

(** What the uptime task does to the outside: the edit of the status
    message ([edit(embed=embed)], the view is not touched) and the line it
    prints for a caught exception. *)
Inductive StatusEffect :=
| StatusEdit (msg : Z) (e : Embed)
| StatusPrint (text : string) (e : Exn).

(** The globals [start_time] and [status_message], and the effects so far. *)
Record Status := mkStatus {
  start_time : Z;
  status_message : option Z;
  console : list StatusEffect
}.

Definition U (A : Type) : Type := Status → (Exn + A) * Status.

Definition ubind {A B} (c : U A) (k : A → U B) : U B :=
  λ st, match c st with
        | (inr a, st') => k a st'
        | (inl e, st') => (inl e, st')
        end.

Section Uptime.

(** [strftime] with ["%I:%M %p IST"] and with ["%I:%M:%S %p IST"]. *)
Variable strftime_started strftime_last : Z → string.

Definition uptime_embed (cfg : Config) (start now : Z) : Embed :=
  mkEmbed ("🎉 " +:+ server_name cfg +:+ " Giveaway Bot") green
          [mkField "START" ("```" +:+ strftime_started start +:+ "```") false;
           mkField "UPTIME"
                   ("```" +:+ format_uptime (datetime_sub now start) +:+ "```")
                   false;
           mkField "LAST UPDATE" ("```" +:+ strftime_last now +:+ "```") false]
          None None.

(** Lines 67-68: the cached message, fetched when there is none. *)
Definition cached_status_message (cfg : Config) (d : Discord) : U Z :=
  λ st, match status_message st with
        | Some msg => (inr msg, st)
        | None =>
            if fetch_message d (status_channel_id cfg) (uptime_msg_id cfg)
            then (inr (uptime_msg_id cfg),
                  mkStatus (start_time st) (Some (uptime_msg_id cfg)) (console st))
            else (inl NotFound, st)
        end.

(** Line 69: [await status_message.edit(embed=embed)]. *)
Definition edit_status (edit_embed : Z → Embed → bool) (e : Embed) (msg : Z)
    : U unit :=
  λ st, if edit_embed msg e
        then (inr tt, mkStatus (start_time st) (status_message st)
                               (console st ++ [StatusEdit msg e]))
        else (inl HTTPException, st).

(** [update_uptime], one run of the 20 s loop at time [now]. *)
Definition update_uptime (cfg : Config) (d : Discord)
    (edit_embed : Z → Embed → bool) (now : Z) : U unit :=
  λ st,
    let embed := uptime_embed cfg (start_time st) now in
    if negb (get_channel d (status_channel_id cfg)) then (inr tt, st)
    else
      match ubind (cached_status_message cfg d) (edit_status edit_embed embed) st with
      | (inl e, st') =>
          (inr tt, mkStatus (start_time st') (status_message st')
                            (console st' ++ [StatusPrint "❌ Uptime update error: " e]))
      | (inr _, st') => (inr tt, st')
      end.


(** One run of the loop with what Discord answers during it. *)
Record Tick := mkTick {
  tick_discord : Discord;
  tick_edit : Z → Embed → bool;
  tick_now : Z
}.

Definition uptime_ticks (cfg : Config) (ticks : list Tick) (st : Status) : Status :=
  foldl (λ st t, (update_uptime cfg (tick_discord t) (tick_edit t) (tick_now t) st).2)
        st ticks.

End Uptime.

(** ** The role check *)

Definition allowed_roles : list string := ["root"; "mod"].

(** The predicate of [has_required_role] on the names of the member's
    roles; [lower] is [str.lower]. *)
Definition has_required_role (lower : string → string)
    (role_names : list string) : bool :=
  let user_roles := lower <$> role_names in
  existsb (λ role, bool_decide (role ∈ allowed_roles)) user_roles.

(** A command behind the check: the callback runs only when the predicate
    holds; otherwise the command tree raises [CheckFailure] ([None] here)
    and answers nothing. *)
Definition checked {A} (lower : string → string) (role_names : list string)
    (command : M A) : M (option A) :=
  if has_required_role lower role_names
  then do a <- command; ret (Some a)
  else ret None.

(** ** More notions for the statements *)

(** The announcement of the row can be reached. *)
Definition reachable (d : Discord) (row : Giveaway) : bool :=
  get_channel d (channel_id row) &&
  fetch_message d (channel_id row) (message_id row).

(** The row can be drawn whatever the result: its announcement accepts
    every rewrite and the count is not negative. *)
Definition drawable (d : Discord) (row : Giveaway) : Prop :=
  (∀ e, edit_message d (message_id row) (SetEmbedClearView e) = true) ∧
  0 <= winners_count row.

(** [result] is a right outcome for giveaway [id] with count [k] over the
    participants of [s]. *)
Definition fair_result (s : Store) (id k : Z) (result : Field) : Prop :=
  let user_ids := select_user_ids s id in
  (k <= Z.of_nat (length user_ids) →
     ∃ winners, result = winners_field winners ∧
       Z.of_nat (length winners) = k ∧ NoDup winners ∧
       ∀ uid, uid ∈ winners → (id, uid) ∈ participants s) ∧
  (Z.of_nat (length user_ids) < k → result = not_enough).

(** [d] with every edit accepted; the rest answers as [d] does. *)
Definition accepting (d : Discord) : Discord :=
  mkDiscord (get_channel d) (fetch_message d) (λ _ _, true) (channel_send d).

(** Discord accepts the edit that log entry [x] records. *)
Definition accepted (d : Discord) (x : Effect) : Prop :=
  match x with
  | MessageEdit msg ed => edit_message d msg ed = true
  | _ => True
  end.

(** What a scanner run at [now] adds to the log when no rewrite is
    refused: the rewrites the run attempts, each with its commit. *)
Definition attempted (d : Discord) (now : Z) (w : World) : list Effect :=
  drop (length (trace w)) (trace (check_giveaways (accepting d) now w).2).

(** [d] accepts every rewrite the run attempts. *)
Definition rewrites_accepted (d : Discord) (now : Z) (w : World) : Prop :=
  Forall (accepted d) (attempted d now w).

(** The log entry of a closed row, as [closings] takes it. *)
Definition entry (r : Z * Giveaway) (result : Field) : Z * Z * Embed :=
  (message_id r.2, r.1, ended_embed (prize r.2) result).

(** Generated ids are below the sequence, and every participant pair
    references a stored giveaway. *)
Definition store_ok (s : Store) : Prop :=
  (∀ id, is_Some (giveaways s !! id) → id < giveaways_id_seq s) ∧
  (∀ p, p ∈ participants s → is_Some (giveaways s !! p.1)).

(** Pressing the button of giveaway [id] once per user of [users]. *)
Definition enter_all (id : Z) (users : list Z) : list Op :=
  Enter id <$> users.

Module Cases.

(** [str.lower] on ASCII letters. *)
Fixpoint ascii_lower (s : string) : string :=
  match s with
  | EmptyString => EmptyString
  | String c s' =>
      let n := Ascii.nat_of_ascii c in
      String (if bool_decide (65 ≤ n ≤ 90)%nat
              then Ascii.ascii_of_nat (n + 32) else c)
             (ascii_lower s')
  end.

Definition config : Config := mkConfig "MyServer" 77 7001.

Definition status0 : Status := mkStatus 0 None [].

(** The status channel is cached and its message exists. *)
Definition status_ok : Tick :=
  mkTick Examples.discord_ok (λ _ _, true) 93784000000.

(** The status message is gone: fetching and editing it both raise. *)
Definition status_gone : Tick :=
  mkTick (mkDiscord (λ _, true) (λ _ _, false) (λ _ _, true) (λ _ _, None))
         (λ _ _, false) 93784000000.

(** Edits are accepted unless the embed has a field with an empty value. *)
Definition discord_strict : Discord :=
  mkDiscord (λ _, true) (λ _ _, true)
            (λ _ ed, match ed with
                     | SetEmbedClearView e =>
                         forallb (λ f, negb (String.eqb (value f) "")) (fields e)
                     | SetView _ => true
                     end)
            (λ channel _, Some (channel + 1000)).

(** A channel that rejects every message. *)
Definition discord_no_send : Discord :=
  mkDiscord (λ _, true) (λ _ _, true) (λ _ _, true) (λ _ _, None).

(** The channel of giveaway 2 is not in the cache. *)
Definition discord_no_channel_11 : Discord :=
  mkDiscord (λ c, bool_decide (c ≠ 11)) (λ _ _, true) (λ _ _, true)
            (λ channel _, Some (channel + 1000)).


Definition bad_channel_id : Environ :=
  mkEnviron None (Some "token") (Some "postgres://db") (Some "general") None.

Definition gateway_no_pool : Gateway := mkGateway true "bot#0001" false (inr 2%nat).

Definition gateway_no_sync : Gateway :=
  mkGateway true "bot#0001" true (inl "Forbidden").

End Cases.

(** * Proofs *)

(** ** Sampling *)

Lemma pool_step (pool : list Z) (j : nat) :
  (j < length pool)%nat →
  pool !!! j :: take (length pool - 1) (<[j := pool !!! (length pool - 1)%nat]> pool)
    ≡ₚ pool.
Proof.
  destruct pool as [|l init _] using rev_ind; [simpl; lia|].
  rewrite length_app. simpl length. intros Hj.
  replace (length init + 1 - 1)%nat with (length init) by lia.
  assert (Hl : (init ++ [l]) !!! length init = l).
  { apply list_lookup_total_correct. by rewrite list_lookup_middle. }
  rewrite Hl.
  destruct (decide (j = length init)) as [->|Hne].
  - rewrite Hl, list_insert_id by (by rewrite list_lookup_middle).
    rewrite take_app_length. by rewrite Permutation_cons_append.
  - assert (Hj' : (j < length init)%nat) by lia.
    destruct (lookup_lt_is_Some_2 init j Hj') as [x Hx].
    rewrite insert_app_l by done.
    rewrite take_app_length' by (by rewrite length_insert).
    rewrite (list_lookup_total_correct (init ++ [l]) j x)
      by (by rewrite lookup_app_l).
    rewrite insert_take_drop by done.
    rewrite <- (take_drop_middle init j x Hx) at 3.
    rewrite <- Permutation_cons_append.
    rewrite <- !Permutation_middle. apply perm_swap.
Qed.

Lemma sample_pool_spec (k : nat) : ∀ (pool : list Z) (w : World),
  (k ≤ length pool)%nat →
  ∃ ws left w',
    sample_pool pool k w = (inr ws, w') ∧
    db w' = db w ∧ trace w' = trace w ∧ entropy w' = entropy w ∧
    length ws = k ∧ ws ++ left ≡ₚ pool.
Proof.
  induction k as [|k IH]; intros pool w Hk.
  - exists [], pool, w. by simpl.
  - simpl in *. unfold bind, randbelow.
    set (j := (entropy w (draws w) `mod` length pool)%nat).
    set (w1 := mkWorld _ _ _ _).
    assert (Hj : (j < length pool)%nat).
    { apply Nat.mod_upper_bound. lia. }
    set (pool' := take _ _).
    assert (Hlen : length pool' = (length pool - 1)%nat).
    { unfold pool'. rewrite length_take, length_insert. lia. }
    destruct (IH pool' w1) as (ws & left & w' & Hrun & Hdb & Htr & Hen & Hws & Hperm);
      [lia|].
    exists (pool !!! j :: ws), left, w'.
    rewrite Hrun. unfold ret. repeat split; try done.
    + simpl. by rewrite Hws.
    + simpl. rewrite Hperm. apply pool_step, Hj.
Qed.

Lemma random_sample_spec (population : list Z) (k : Z) (w : World) :
  0 <= k <= Z.of_nat (length population) →
  ∃ winners w',
    random_sample population k w = (inr winners, w') ∧
    db w' = db w ∧ trace w' = trace w ∧ entropy w' = entropy w ∧
    Z.of_nat (length winners) = k ∧ winners ⊆ population ∧
    (NoDup population → NoDup winners).
Proof.
  intros Hk. unfold random_sample. rewrite bool_decide_true by done.
  destruct (sample_pool_spec (Z.to_nat k) population w)
    as (ws & left & w' & Hrun & Hdb & Htr & Hen & Hws & Hperm); [lia|].
  exists ws, w'. repeat split; try done.
  - lia.
  - intros x Hx. rewrite <- Hperm. set_solver.
  - intros Hnd. rewrite <- Hperm in Hnd. by apply NoDup_app in Hnd as [? _].
Qed.

Lemma random_sample_raises (population : list Z) (k : Z) (w : World) :
  ¬ (0 <= k <= Z.of_nat (length population)) →
  random_sample population k w = (inl ValueError, w).
Proof.
  intros Hk. unfold random_sample. by rewrite bool_decide_false.
Qed.

Lemma select_user_ids_NoDup (s : Store) (id : Z) : NoDup (select_user_ids s id).
Proof.
  unfold select_user_ids. apply NoDup_fmap_2_strong.
  - intros [g1 u1] [g2 u2] H1 H2 Heq.
    apply list_elem_of_filter in H1 as [H1 _].
    apply list_elem_of_filter in H2 as [H2 _].
    simpl in *. congruence.
  - apply NoDup_filter, NoDup_elements.
Qed.

Lemma elem_of_select_user_ids (s : Store) (id uid : Z) :
  uid ∈ select_user_ids s id ↔ (id, uid) ∈ participants s.
Proof.
  unfold select_user_ids. rewrite list_elem_of_fmap. split.
  - intros ([g u] & -> & Hin). apply list_elem_of_filter in Hin as [Hg Hin].
    simpl in Hg. subst g. by apply elem_of_elements in Hin.
  - intros Hin. exists (id, uid). split; [done|].
    apply list_elem_of_filter. split; [done|]. by apply elem_of_elements.
Qed.


Lemma process_row_eq (d : Discord) (id : Z) (row : Giveaway) (w : World) :
  process_row d (id, row) w =
  if negb (get_channel d (channel_id row)) then (inr tt, w)
  else if negb (fetch_message d (channel_id row) (message_id row)) then (inr tt, w)
  else match result_field (select_user_ids (db w) id) (winners_count row) w with
       | (inl e, w1) => (inl e, w1)
       | (inr result, w1) =>
           if edit_message d (message_id row)
                (SetEmbedClearView (ended_embed (prize row) result))
           then (inr tt, closed id row result w1)
           else (inl HTTPException, w1)
       end.
Proof.
  unfold process_row, bind, get_db, try_, do_fetch_message; simpl.
  destruct (get_channel d (channel_id row)); simpl; [|done].
  destruct (fetch_message d (channel_id row) (message_id row)); simpl; [|done].
  destruct (result_field _ _ w) as [[e|result] w1]; [done|].
  unfold do_edit, update_ended, bind, emit, get_db, put_db.
  destruct (edit_message d _ _); [|done].
  unfold closed, with_effect, with_db. simpl. by rewrite <- app_assoc.
Qed.

Lemma result_field_cases (user_ids : list Z) (k : Z) (w : World) :
  (Z.of_nat (length user_ids) < k ∧ result_field user_ids k w = (inr not_enough, w)) ∨
  (k < 0 ∧ result_field user_ids k w = (inl ValueError, w)) ∨
  (0 <= k <= Z.of_nat (length user_ids) ∧
   ∃ winners w1, result_field user_ids k w = (inr (winners_field winners), w1) ∧
     db w1 = db w ∧ trace w1 = trace w ∧ entropy w1 = entropy w ∧
     Z.of_nat (length winners) = k ∧ winners ⊆ user_ids ∧
     (NoDup user_ids → NoDup winners)).
Proof.
  unfold result_field. case_bool_decide as Hlt; [by left|right].
  unfold bind. destruct (decide (k < 0)) as [Hneg|Hpos].
  - left. split; [done|]. rewrite random_sample_raises by lia. done.
  - right. split; [lia|].
    destruct (random_sample_spec user_ids k w) as (ws & w1 & -> & ?); [lia|].
    by exists ws, w1.
Qed.


Lemma set_ended_idemp (g : Giveaway) : set_ended (set_ended g) = set_ended g.
Proof. done. Qed.

Lemma set_ended_id (g : Giveaway) : ended g = true → set_ended g = g.
Proof. destruct g; simpl; by intros ->. Qed.

Lemma only_ended_refl (ids : list Z) (s : Store) : only_ended ids s s.
Proof. repeat split. intros id. by left. Qed.

Lemma only_ended_trans (ids : list Z) (s1 s2 s3 : Store) :
  only_ended ids s1 s2 → only_ended ids s2 s3 → only_ended ids s1 s3.
Proof.
  intros (Hp1 & Hq1 & H1) (Hp2 & Hq2 & H2).
  split; [congruence|]. split; [congruence|]. intros id.
  destruct (H2 id) as [->|[Hin ->]], (H1 id) as [->|[Hin' ->]]; auto.
  right. split; [done|]. destruct (giveaways s1 !! id); done.
Qed.

Lemma only_ended_mono (ids ids' : list Z) (s s' : Store) :
  ids ⊆ ids' → only_ended ids s s' → only_ended ids' s s'.
Proof.
  intros Hsub (Hp & Hq & H). repeat split; try done.
  intros id. destruct (H id) as [?|[? ?]]; auto.
Qed.

Lemma only_ended_mark (id : Z) (s : Store) :
  only_ended [id] s (mark_ended id s).
Proof.
  repeat split. intros id'. simpl. rewrite lookup_alter.
  case_decide as Heq; [subst id'|by left].
  right. split; [set_solver|done].
Qed.

Lemma process_row_db (d : Discord) (id : Z) (row : Giveaway) (w : World) :
  db (process_row d (id, row) w).2 = db w ∨
  db (process_row d (id, row) w).2 = mark_ended id (db w).
Proof.
  rewrite process_row_eq.
  destruct (negb (get_channel d (channel_id row))); [by left|].
  destruct (negb (fetch_message d (channel_id row) (message_id row))); [by left|].
  destruct (result_field_cases (select_user_ids (db w) id) (winners_count row) w)
    as [[_ ->]|[[_ ->]|[_ (ws & w1 & -> & Hdb & _)]]].
  - destruct (edit_message d _ _); simpl; auto.
  - by left.
  - destruct (edit_message d _ _); simpl; rewrite Hdb; auto.
Qed.

Lemma process_row_only_ended (d : Discord) (r : Z * Giveaway) (w : World) :
  only_ended [r.1] (db w) (db (process_row d r w).2).
Proof.
  destruct r as [id row]. simpl.
  destruct (process_row_db d id row w) as [->| ->].
  - apply only_ended_refl.
  - apply only_ended_mark.
Qed.

Lemma for_each_only_ended (d : Discord) (rows : list (Z * Giveaway)) :
  ∀ w, only_ended rows.*1 (db w) (db (for_each rows (process_row d) w).2).
Proof.
  induction rows as [|r rows IH]; intros w; [apply only_ended_refl|].
  simpl. unfold bind.
  pose proof (process_row_only_ended d r w) as Hr.
  destruct (process_row d r w) as [[e|[]] w1]; simpl in *.
  - eapply only_ended_mono; [|done]. set_solver.
  - eapply only_ended_trans.
    + eapply only_ended_mono; [|exact Hr]. set_solver.
    + eapply only_ended_mono; [|apply IH]. set_solver.
Qed.

Lemma check_giveaways_only_ended (d : Discord) (now : Z) (w : World) :
  only_ended (select_due (db w) now).*1 (db w) (db (check_giveaways d now w).2).
Proof. unfold check_giveaways, bind, get_db. apply for_each_only_ended. Qed.

Lemma elem_of_select_due (s : Store) (now id : Z) (row : Giveaway) :
  (id, row) ∈ select_due s now ↔
  giveaways s !! id = Some row ∧ end_time row <= now ∧ ended row = false.
Proof.
  unfold select_due. rewrite list_elem_of_filter, elem_of_map_to_list. simpl.
  tauto.
Qed.

(** ** The draw *)

Lemma lookup_mark_ended (id : Z) (s : Store) :
  giveaways (mark_ended id s) !! id = set_ended <$> giveaways s !! id.
Proof. simpl. rewrite lookup_alter. by case_decide. Qed.

Lemma lookup_mark_ended_ne (id id' : Z) (s : Store) :
  id ≠ id' → giveaways (mark_ended id s) !! id' = giveaways s !! id'.
Proof. intros Hne. simpl. rewrite lookup_alter. by case_decide. Qed.

(** The loop body on a stored row with a count [>= 0] whose announcement
    is fetched and rewritten. *)
Lemma process_row_closes (d : Discord) (w : World) (id : Z) (row : Giveaway) :
  giveaways (db w) !! id = Some row →
  get_channel d (channel_id row) = true →
  fetch_message d (channel_id row) (message_id row) = true →
  (∀ e, edit_message d (message_id row) (SetEmbedClearView e) = true) →
  0 <= winners_count row →
  let user_ids := select_user_ids (db w) id in
  ∃ result w',
    process_row d (id, row) w = (inr tt, w') ∧
    trace w' = trace w ++
      closings [(message_id row, id, ended_embed (prize row) result)] ∧
    db w' = mark_ended id (db w) ∧
    giveaways (db w') !! id = Some (set_ended row) ∧
    (winners_count row <= Z.of_nat (length user_ids) →
       ∃ winners, result = winners_field winners ∧
         Z.of_nat (length winners) = winners_count row ∧
         NoDup winners ∧
         ∀ uid, uid ∈ winners → (id, uid) ∈ participants (db w)) ∧
    (Z.of_nat (length user_ids) < winners_count row → result = not_enough).
Proof.
  intros Hrow Hch Hmsg Hedit Hk user_ids.
  rewrite process_row_eq, Hch, Hmsg. simpl.
  destruct (result_field_cases user_ids (winners_count row) w)
    as [[Hlt Hres]|[[Hneg _]|[Hin (ws & w1 & Hres & Hdb & Htr & _ & Hlen & Hsub & Hnd)]]];
    [| lia |]; fold user_ids; rewrite Hres, Hedit.
  - exists not_enough, (closed id row not_enough w).
    split_and!; try done; [|lia].
    simpl db. by rewrite lookup_mark_ended, Hrow.
  - exists (winners_field ws), (closed id row (winners_field ws) w1).
    split_and!; try done.
    + simpl. by rewrite Htr.
    + simpl. by rewrite Hdb.
    + simpl db. by rewrite Hdb, lookup_mark_ended, Hrow.
    + intros _. exists ws. split_and!; try done.
      * apply Hnd, select_user_ids_NoDup.
      * intros uid Huid. by apply elem_of_select_user_ids, Hsub.
    + lia.
Qed.


Lemma for_each_cons {A} (x : A) (xs : list A) (body : A → M unit) (w : World) :
  for_each (x :: xs) body w =
  match body x w with
  | (inr _, w1) => for_each xs body w1
  | (inl e, w1) => (inl e, w1)
  end.
Proof. done. Qed.

(** An exception of the body leaves the loop: the rows after it are not
    looked at. *)
Lemma for_each_raise {A} (x : A) (xs : list A) (body : A → M unit)
    (w w1 : World) (e : Exn) :
  body x w = (inl e, w1) → for_each (x :: xs) body w = (inl e, w1).
Proof. intros H. by rewrite for_each_cons, H. Qed.

(** A row with a negative count whose announcement is fetched makes the
    loop body raise in every world. *)
Lemma process_row_negative (d : Discord) (id : Z) (row : Giveaway) (w : World) :
  winners_count row < 0 →
  get_channel d (channel_id row) = true →
  fetch_message d (channel_id row) (message_id row) = true →
  process_row d (id, row) w = (inl ValueError, w).
Proof.
  intros Hneg Hch Hmsg. rewrite process_row_eq, Hch, Hmsg. simpl.
  destruct (result_field_cases (select_user_ids (db w) id) (winners_count row) w)
    as [[? _]|[[_ ->]|[? _]]]; [|done|lia].
  pose proof (Nat2Z.is_nonneg (length (select_user_ids (db w) id))). lia.
Qed.

Lemma for_each_negative (d : Discord) (id : Z) (row : Giveaway)
    (rows : list (Z * Giveaway)) :
  winners_count row < 0 →
  get_channel d (channel_id row) = true →
  fetch_message d (channel_id row) (message_id row) = true →
  (id, row) ∈ rows →
  ∀ w, ∃ e w', for_each rows (process_row d) w = (inl e, w').
Proof.
  intros Hneg Hch Hmsg. induction rows as [|r rows IH]; intros Hin w.
  - by apply elem_of_nil in Hin.
  - simpl. unfold bind. destruct (process_row d r w) as [[e|[]] w1] eqn:Hr.
    + by exists e, w1.
    + apply elem_of_cons in Hin as [<-|Hin].
      * rewrite process_row_negative in Hr by done. discriminate Hr.
      * by apply IH.
Qed.

(** C9. With [winners_count <= 0] the not-enough branch is never taken:
    the result field is whatever [random.sample] gives. With
    [winners_count < 0] the call raises [ValueError]; so does the loop body
    once the announcement of the row is fetched, and then every scanner
    run in which the row is due ends with an exception ([ValueError]
    itself when the row comes first). *)
Theorem nonpositive_count_reaches_sample (d : Discord) (now : Z) (w : World)
    (id : Z) (row : Giveaway) :
  winners_count row <= 0 →
  let user_ids := select_user_ids (db w) id in
  result_field user_ids (winners_count row) w =
    (do winners <- random_sample user_ids (winners_count row);
     ret (winners_field winners)) w ∧
  (∀ w', result_field user_ids (winners_count row) w ≠ (inr not_enough, w')) ∧
  (winners_count row < 0 →
     random_sample user_ids (winners_count row) w = (inl ValueError, w) ∧
     (get_channel d (channel_id row) = true →
      fetch_message d (channel_id row) (message_id row) = true →
      process_row d (id, row) w = (inl ValueError, w) ∧
      (∀ rest, select_due (db w) now = (id, row) :: rest →
               check_giveaways d now w = (inl ValueError, w)) ∧
      ((id, row) ∈ select_due (db w) now →
       ∃ e w', check_giveaways d now w = (inl e, w')))).
Proof.
  intros Hk user_ids.
  assert (Hres : result_field user_ids (winners_count row) w =
    (do winners <- random_sample user_ids (winners_count row);
     ret (winners_field winners)) w).
  { unfold result_field. by rewrite bool_decide_false by lia. }
  split; [done|]. split.
  - intros w'. rewrite Hres. unfold bind.
    destruct (random_sample _ _ w) as [[e|ws] w1]; [done|].
    unfold ret, winners_field, not_enough. congruence.
  - intros Hneg. split; [apply random_sample_raises; lia|].
    intros Hch Hmsg.
    pose proof (process_row_negative d id row w Hneg Hch Hmsg) as Hp.
    split_and!; [done| |].
    + intros rest Hdue. unfold check_giveaways, bind, get_db. rewrite Hdue.
      by apply for_each_raise.
    + intros Hin. unfold check_giveaways, bind, get_db.
      by apply (for_each_negative d id row).
Qed.

(** ** The scanner loop *)

(** A row without cached channel or without announcement is passed over. *)
Lemma process_row_skips (d : Discord) (id : Z) (row : Giveaway) (w : World) :
  get_channel d (channel_id row) = false ∨
  fetch_message d (channel_id row) (message_id row) = false →
  process_row d (id, row) w = (inr tt, w).
Proof.
  intros H. rewrite process_row_eq.
  destruct (get_channel d (channel_id row)); [|done].
  destruct H as [H|H]; [done|]. by rewrite H.
Qed.

Lemma process_row_trace (d : Discord) (id : Z) (row : Giveaway) (w : World) :
  trace (process_row d (id, row) w).2 = trace w ∨
  ∃ result,
    trace (process_row d (id, row) w).2 =
      trace w ++ closings [(message_id row, id, ended_embed (prize row) result)].
Proof.
  rewrite process_row_eq.
  destruct (negb (get_channel d (channel_id row))); [by left|].
  destruct (negb (fetch_message d (channel_id row) (message_id row))); [by left|].
  destruct (result_field_cases (select_user_ids (db w) id) (winners_count row) w)
    as [[_ ->]|[[_ ->]|[_ (ws & w1 & -> & _ & Htr & _)]]].
  - destruct (edit_message d _ _); simpl; [right|by left]. by eexists.
  - by left.
  - destruct (edit_message d _ _); simpl; rewrite Htr; [right|by left].
    by eexists.
Qed.

Lemma closings_app (cs1 cs2 : list (Z * Z * Embed)) :
  closings (cs1 ++ cs2) = closings cs1 ++ closings cs2.
Proof. unfold closings. apply bind_app. Qed.

Lemma for_each_trace (d : Discord) (rows : list (Z * Giveaway)) :
  ∀ w, ∃ cs,
    trace (for_each rows (process_row d) w).2 = trace w ++ closings cs ∧
    Forall (λ c, ∃ row, (c.1.2, row) ∈ rows ∧ c.1.1 = message_id row) cs.
Proof.
  induction rows as [|[id row] rows IH]; intros w.
  - exists []. split; [simpl; by rewrite app_nil_r|constructor].
  - rewrite for_each_cons.
    assert (Hhead : ∃ cs1,
      trace (process_row d (id, row) w).2 = trace w ++ closings cs1 ∧
      Forall (λ c, ∃ row0, (c.1.2, row0) ∈ (id, row) :: rows ∧
                            c.1.1 = message_id row0) cs1).
    { destruct (process_row_trace d id row w) as [H|[result H]].
      - exists []. split; [simpl; by rewrite app_nil_r|constructor].
      - eexists. split; [exact H|]. repeat constructor.
        exists row. split; [set_solver|done]. }
    destruct Hhead as (cs1 & Htr1 & Hall1).
    destruct (process_row d (id, row) w) as [[e|[]] w1]; simpl in *.
    + by exists cs1.
    + destruct (IH w1) as (cs2 & Htr2 & Hall2).
      exists (cs1 ++ cs2). split.
      * by rewrite Htr2, Htr1, closings_app, app_assoc.
      * apply Forall_app. split; [done|].
        eapply Forall_impl; [exact Hall2|].
        intros c (row0 & Hin & Hm). exists row0. split; [set_solver|done].
Qed.


(** C10. A draw changes the store by at most [ended = TRUE] on its own
    row: the store after the loop body is the old one or the old one with
    that update, so the other fields of the row, the other rows, the id
    sequence and the participants are as before, no row appears or
    disappears, and the winners (absent from both stores) are only in the
    rewritten announcement of the log. The same holds for a whole scanner
    run, with changes on due rows only. *)
Theorem draw_changes_only_ended (d : Discord) (now : Z) (w : World) (id : Z)
    (row : Giveaway) :
  let wr := (process_row d (id, row) w).2 in
  let wt := (check_giveaways d now w).2 in
  (db wr = db w ∨ db wr = mark_ended id (db w)) ∧
  participants (db wr) = participants (db w) ∧
  giveaways_id_seq (db wr) = giveaways_id_seq (db w) ∧
  (∀ id', id' ≠ id → giveaways (db wr) !! id' = giveaways (db w) !! id') ∧
  (giveaways (db wr) !! id = giveaways (db w) !! id ∨
   giveaways (db wr) !! id = set_ended <$> giveaways (db w) !! id) ∧
  (∀ g, message_id (set_ended g) = message_id g ∧
        channel_id (set_ended g) = channel_id g ∧
        end_time (set_ended g) = end_time g ∧
        prize (set_ended g) = prize g ∧
        winners_count (set_ended g) = winners_count g ∧
        host_id (set_ended g) = host_id g) ∧
  participants (db wt) = participants (db w) ∧
  giveaways_id_seq (db wt) = giveaways_id_seq (db w) ∧
  (∀ id', giveaways (db wt) !! id' = giveaways (db w) !! id' ∨
          ∃ row', (id', row') ∈ select_due (db w) now ∧
                  giveaways (db wt) !! id' = Some (set_ended row')).
Proof.
  intros wr wt.
  pose proof (process_row_only_ended d (id, row) w) as (Hp & Hq & Hg).
  pose proof (check_giveaways_only_ended d now w) as (Hpt & Hqt & Hgt).
  split_and!; try done.
  - apply process_row_db.
  - intros id' Hne. destruct (Hg id') as [?|[Hin _]]; [done|].
    simpl in Hin. set_solver.
  - destruct (Hg id) as [?|[_ ?]]; auto.
  - intros id'. destruct (Hgt id') as [?|[Hin Hset]]; [by left|right].
    apply list_elem_of_fmap in Hin as ([id0 row'] & -> & Hin). simpl in *.
    exists row'. split; [done|].
    apply elem_of_select_due in Hin as (Hrow & _). unfold wt.
    by rewrite Hset, Hrow.
Qed.

(** A scanner run over rows that can all be drawn closes every one of
    them, whatever the outcome of the others. *)
Lemma for_each_closes (d : Discord) (rows : list (Z * Giveaway)) :
  NoDup rows.*1 →
  (∀ id row, (id, row) ∈ rows →
     get_channel d (channel_id row) = true ∧
     fetch_message d (channel_id row) (message_id row) = true ∧
     (∀ e, edit_message d (message_id row) (SetEmbedClearView e) = true) ∧
     0 <= winners_count row) →
  ∀ w, (∀ id row, (id, row) ∈ rows → giveaways (db w) !! id = Some row) →
  ∃ w', for_each rows (process_row d) w = (inr tt, w') ∧
        ∀ id row, (id, row) ∈ rows →
                  giveaways (db w') !! id = Some (set_ended row).
Proof.
  induction rows as [|[id row] rows IH]; intros Hnd Hok w Hrows.
  - exists w. split; [done|]. intros ?? Hin. by apply elem_of_nil in Hin.
  - apply NoDup_cons in Hnd as [Hnotin Hnd]. simpl in Hnotin.
    destruct (Hok id row) as (Hch & Hmsg & Hedit & Hk); [set_solver|].
    destruct (process_row_closes d w id row) as (res & w1 & Hrun & _ & Hdb & Hrow & _);
      [apply Hrows; set_solver|done..|].
    assert (Hok' : ∀ id' row', (id', row') ∈ rows →
      get_channel d (channel_id row') = true ∧
      fetch_message d (channel_id row') (message_id row') = true ∧
      (∀ e, edit_message d (message_id row') (SetEmbedClearView e) = true) ∧
      0 <= winners_count row').
    { intros id' row' Hin. apply (Hok id'). set_solver. }
    assert (Hrows' : ∀ id' row', (id', row') ∈ rows →
      giveaways (db w1) !! id' = Some row').
    { intros id' row' Hin. rewrite Hdb, lookup_mark_ended_ne.
      - apply Hrows. set_solver.
      - intros ->. apply Hnotin, list_elem_of_fmap. by exists (id', row'). }
    destruct (IH Hnd Hok' w1 Hrows') as (w' & Hrest & Hclosed).
    exists w'. split; [by rewrite for_each_cons, Hrun|].
    intros id' row' Hin. apply elem_of_cons in Hin as [[= -> ->]|Hin];
      [|by apply Hclosed].
    pose proof (for_each_only_ended d rows w1) as (_ & _ & Hg).
    rewrite Hrest in Hg. simpl in Hg.
    destruct (Hg id) as [->|[_ ->]]; rewrite Hrow; done.
Qed.

Lemma scan_closes_all_due (d : Discord) (now : Z) (w : World) :
  (∀ id row, (id, row) ∈ select_due (db w) now →
     get_channel d (channel_id row) = true ∧
     fetch_message d (channel_id row) (message_id row) = true ∧
     (∀ e, edit_message d (message_id row) (SetEmbedClearView e) = true) ∧
     0 <= winners_count row) →
  ∃ w', check_giveaways d now w = (inr tt, w') ∧
        ∀ id row, (id, row) ∈ select_due (db w) now →
                  giveaways (db w') !! id = Some (set_ended row).
Proof.
  intros Hok. unfold check_giveaways, bind, get_db.
  apply for_each_closes; [|done|].
  - unfold select_due. eapply NoDup_fmap_fst.
    + intros id r1 r2 H1%list_elem_of_filter H2%list_elem_of_filter.
      destruct H1 as [_ H1%elem_of_map_to_list],
               H2 as [_ H2%elem_of_map_to_list]. congruence.
    + apply NoDup_filter, NoDup_map_to_list.
  - intros id row Hin. by apply elem_of_select_due in Hin as (? & _).
Qed.

(** C3, at the failing input: two due giveaways whose channels and
    announcements exist; the rewrite of the announcement of the row fetched
    first raises. The exception leaves [check_giveaways]: the other row,
    which on its own would have been drawn and closed, is not processed in
    this run. *)
Theorem edit_failure_aborts_scan :
  let d := Examples.discord_edit_fails 1011 in
  let r := check_giveaways d 60000000 Examples.two_due in
  select_due (db Examples.two_due) 60000000 =
    [(2, Examples.skin); (1, Examples.nitro)] ∧
  r.1 = inl HTTPException ∧
  trace r.2 = [] ∧
  giveaways (db r.2) !! 1 = Some Examples.nitro ∧
  ended Examples.nitro = false ∧
  (process_row d (1, Examples.nitro) Examples.two_due).1 = inr tt ∧
  giveaways (db (process_row d (1, Examples.nitro) Examples.two_due).2) !! 1 =
    Some (set_ended Examples.nitro).
Proof. vm_compute. by split_and!. Qed.

(** The same for any run whose first row fails to be rewritten. *)
Lemma edit_failure_leaves_loop (d : Discord) (now : Z) (w : World) (id : Z)
    (row : Giveaway) (rest : list (Z * Giveaway)) :
  select_due (db w) now = (id, row) :: rest →
  get_channel d (channel_id row) = true →
  fetch_message d (channel_id row) (message_id row) = true →
  (∀ e, edit_message d (message_id row) (SetEmbedClearView e) = false) →
  0 <= winners_count row →
  ∃ w', check_giveaways d now w = (inl HTTPException, w') ∧
        db w' = db w ∧ trace w' = trace w.
Proof.
  intros Hdue Hch Hmsg Hedit Hk.
  unfold check_giveaways, bind, get_db. rewrite Hdue.
  assert (∃ w', process_row d (id, row) w = (inl HTTPException, w') ∧
                db w' = db w ∧ trace w' = trace w) as (w' & Hp & ?).
  { rewrite process_row_eq, Hch, Hmsg. simpl.
    destruct (result_field_cases (select_user_ids (db w) id) (winners_count row) w)
      as [[_ ->]|[[? _]|[_ (ws & w1 & -> & ? & ? & _)]]]; [|lia|];
      rewrite Hedit; by eexists. }
  exists w'. split; [|done]. by apply for_each_raise.
Qed.



(** ** Joining *)

Lemma enter_button_eq (giveaway_id user_id : Z) (w : World) :
  enter_button giveaway_id user_id w =
  if bool_decide ((giveaway_id, user_id) ∈ participants (db w)) then
    (inr tt, with_effect (InteractionResponse "✅ You're in!") w)
  else if bool_decide (is_Some (giveaways (db w) !! giveaway_id)) then
    (inr tt,
     mkWorld (mkStore (giveaways (db w))
                      ({[ (giveaway_id, user_id) ]} ∪ participants (db w))
                      (giveaways_id_seq (db w)))
             (trace w ++ [DbInsertParticipant giveaway_id user_id;
                          InteractionResponse "✅ You're in!"])
             (entropy w) (draws w))
  else (inl ForeignKeyViolationError, w).
Proof.
  unfold enter_button, insert_participant, bind, get_db.
  case_bool_decide; [done|]. case_bool_decide; [|done].
  unfold put_db, emit, with_effect, with_db. simpl. by rewrite <- app_assoc.
Qed.

Lemma filter_eq_absent {A} `{EqDecision A} (x : A) (l : list A) :
  x ∉ l → filter (λ y, y = x) l = [].
Proof.
  induction l as [|a l IH]; [done|]. intros Hnotin.
  apply not_elem_of_cons in Hnotin as [Hne Hnotin].
  rewrite filter_cons_False by congruence. by apply IH.
Qed.

Lemma filter_eq_length {A} `{EqDecision A} (x : A) (l : list A) :
  NoDup l → x ∈ l → length (filter (λ y, y = x) l) = 1%nat.
Proof.
  induction 1 as [|a l Hnotin Hnd IH]; [by intros ?%elem_of_nil|].
  intros Hin. destruct (decide (a = x)) as [->|Hne].
  - rewrite filter_cons_True by done. by rewrite filter_eq_absent.
  - rewrite filter_cons_False by done.
    apply elem_of_cons in Hin as [->|Hin]; [done|]. by apply IH.
Qed.

Lemma participant_rows_one (s : Store) (giveaway_id user_id : Z) :
  (giveaway_id, user_id) ∈ participants s →
  participant_rows s giveaway_id user_id = 1%nat.
Proof.
  intros Hin. unfold participant_rows. apply filter_eq_length.
  - apply NoDup_elements.
  - by apply elem_of_elements.
Qed.

(** The first press, for a stored giveaway. *)
Lemma enter_button_accepts (w : World) (giveaway_id user_id : Z) :
  is_Some (giveaways (db w) !! giveaway_id) →
  ∃ w1,
    enter_button giveaway_id user_id w = (inr tt, w1) ∧
    last (trace w1) = Some (InteractionResponse "✅ You're in!") ∧
    participants (db w1) = {[ (giveaway_id, user_id) ]} ∪ participants (db w) ∧
    giveaways (db w1) = giveaways (db w).
Proof.
  intros Hg. rewrite enter_button_eq. case_bool_decide as Hin.
  - eexists. split; [done|]. simpl. split_and!; [by rewrite last_snoc| |done].
    set_solver.
  - rewrite bool_decide_true by done. eexists. split; [done|]. simpl.
    split_and!; [|done|done].
    change [DbInsertParticipant giveaway_id user_id;
            InteractionResponse "✅ You're in!"]
      with ([DbInsertParticipant giveaway_id user_id] ++
            [InteractionResponse "✅ You're in!"]).
    by rewrite app_assoc, last_snoc.
Qed.

(** C5. Pressing the button twice for the same giveaway and user: both
    presses are answered with the same confirmation, the second leaves the
    store as the first left it, and the pair has exactly one row; any
    later press, in any world that still holds the pair, is answered the
    same way and changes nothing but the log. *)
Theorem join_idempotent (w : World) (giveaway_id user_id : Z) :
  is_Some (giveaways (db w) !! giveaway_id) →
  ∃ w1 w2,
    enter_button giveaway_id user_id w = (inr tt, w1) ∧
    enter_button giveaway_id user_id w1 = (inr tt, w2) ∧
    last (trace w1) = Some (InteractionResponse "✅ You're in!") ∧
    trace w2 = trace w1 ++ [InteractionResponse "✅ You're in!"] ∧
    db w2 = db w1 ∧
    participants (db w1) = {[ (giveaway_id, user_id) ]} ∪ participants (db w) ∧
    participant_rows (db w1) giveaway_id user_id = 1%nat ∧
    participant_rows (db w2) giveaway_id user_id = 1%nat ∧
    (∀ w', (giveaway_id, user_id) ∈ participants (db w') →
           enter_button giveaway_id user_id w' =
             (inr tt, with_effect (InteractionResponse "✅ You're in!") w')).
Proof.
  intros Hg.
  destruct (enter_button_accepts w giveaway_id user_id Hg)
    as (w1 & H1 & Hlast & Hp & _).
  assert (Hin1 : (giveaway_id, user_id) ∈ participants (db w1)).
  { rewrite Hp. set_solver. }
  assert (Hagain : ∀ w', (giveaway_id, user_id) ∈ participants (db w') →
    enter_button giveaway_id user_id w' =
      (inr tt, with_effect (InteractionResponse "✅ You're in!") w')).
  { intros w' Hin. rewrite enter_button_eq. by rewrite bool_decide_true. }
  exists w1, (with_effect (InteractionResponse "✅ You're in!") w1).
  split_and!; try done.
  - by apply Hagain.
  - by apply participant_rows_one.
  - by apply participant_rows_one.
Qed.

(** C8. The button handler does not look at [end_time] or [ended]: for a
    stored giveaway that is past its end time and not yet closed by the
    scanner, the press is answered with the confirmation, the pair is in
    the table, the user is among the ids the draw will read, and the
    giveaway is still due. *)
Theorem late_join_accepted (w : World) (now giveaway_id user_id : Z)
    (g : Giveaway) :
  giveaways (db w) !! giveaway_id = Some g →
  end_time g <= now →
  ended g = false →
  ∃ w',
    enter_button giveaway_id user_id w = (inr tt, w') ∧
    last (trace w') = Some (InteractionResponse "✅ You're in!") ∧
    (giveaway_id, user_id) ∈ participants (db w') ∧
    user_id ∈ select_user_ids (db w') giveaway_id ∧
    giveaways (db w') = giveaways (db w) ∧
    (giveaway_id, g) ∈ select_due (db w') now.
Proof.
  intros Hg Hend Hopen.
  destruct (enter_button_accepts w giveaway_id user_id)
    as (w' & Hrun & Hlast & Hp & Hgs); [by rewrite Hg|].
  exists w'. split_and!; try done.
  - rewrite Hp. set_solver.
  - apply elem_of_select_user_ids. rewrite Hp. set_solver.
  - apply elem_of_select_due. by rewrite Hgs.
Qed.

(** ** Starting a giveaway *)

Section Start.

Variable strftime : Z → string.

Lemma epicgiveaway_ok (d : Discord) (now user : Z)
    (display_name title_ sponsor : string) (duration : Z) (item : string)
    (winners channel : Z) (w : World) (msg : Z) :
  let end_t := now + duration * 60000000 in
  let embed :=
    started_embed strftime title_ item winners end_t sponsor display_name now in
  let id := giveaways_id_seq (db w) in
  let g := mkGiveaway msg channel end_t item winners user false in
  let posted :=
    [InteractionResponse ("🎉 Giveaway started in <#" +:+ pretty channel +:+ ">!");
     ChannelSend channel embed msg;
     DbInsertGiveaway id g] in
  -999999999 <= duration `div` 1440 <= 999999999 →
  datetime_min <= end_t <= datetime_max →
  channel_send d channel embed = Some msg →
  int32_min <= winners <= int32_max →
  giveaways (db w) !! id = None →
  ∃ r w',
    epicgiveaway strftime d now user display_name title_ sponsor duration item
                 winners channel w = (r, w') ∧
    db w' = mkStore (<[id := g]> (giveaways (db w))) (participants (db w)) (id + 1) ∧
    ((r = inr tt ∧ trace w' = trace w ++ posted ++ [MessageEdit msg (SetView id)]) ∨
     (r = inl HTTPException ∧ trace w' = trace w ++ posted)).
Proof.
  intros end_t embed id g posted Hdelta Hend Hsend Hint Hfresh.
  unfold epicgiveaway, bind, emit, timedelta_minutes, datetime_add.
  rewrite bool_decide_true by done. unfold ret.
  rewrite bool_decide_true by done.
  unfold do_send, bind. fold end_t embed. rewrite Hsend.
  unfold emit, ret, insert_giveaway. rewrite bool_decide_true by done.
  unfold bind, get_db. simpl.
  fold id. rewrite Hfresh. unfold put_db, emit, ret, do_edit. simpl.
  destruct (edit_message d msg (SetView id)).
  - eexists _, _. split; [done|]. split; [done|]. left. split; [done|].
    unfold with_effect, emit. simpl. by rewrite <- !app_assoc.
  - eexists _, _. split; [done|]. split; [done|]. right. split; [done|].
    simpl. by rewrite <- !app_assoc.
Qed.

(** Whatever the arguments and answers: the command touches [giveaways]
    at most by a new row, which is not ended. *)
Lemma epicgiveaway_db (d : Discord) (now user : Z)
    (display_name title_ sponsor : string) (duration : Z) (item : string)
    (winners channel : Z) (w : World) :
  let w' := (epicgiveaway strftime d now user display_name title_ sponsor
                          duration item winners channel w).2 in
  participants (db w') = participants (db w) ∧
  ∀ id, giveaways (db w') !! id = giveaways (db w) !! id ∨
        (giveaways (db w) !! id = None ∧
         ∃ g, giveaways (db w') !! id = Some g ∧ ended g = false).
Proof.
  unfold epicgiveaway, bind, emit, timedelta_minutes, datetime_add.
  case_bool_decide; [|split; [done|by left]]. unfold ret.
  case_bool_decide; [|split; [done|by left]].
  unfold do_send, bind.
  destruct (channel_send d channel _) as [msg|]; [|split; [done|by left]].
  unfold emit, ret, insert_giveaway.
  case_bool_decide; [|split; [done|by left]].
  unfold bind, get_db. simpl.
  destruct (giveaways (db w) !! giveaways_id_seq (db w)) as [g0|] eqn:Hfresh.
  - simpl. split; [done|by left].
  - unfold put_db, emit, ret, do_edit. simpl.
    assert (Hnew : ∀ g id,
      <[giveaways_id_seq (db w) := g]> (giveaways (db w)) !! id =
        giveaways (db w) !! id ∨
      (giveaways (db w) !! id = None ∧
       ∃ g', <[giveaways_id_seq (db w) := g]> (giveaways (db w)) !! id = Some g' ∧
             g' = g)).
    { intros g id. destruct (decide (giveaways_id_seq (db w) = id)) as [<-|Hne].
      - right. split; [done|]. exists g. by rewrite lookup_insert_eq.
      - left. by rewrite lookup_insert_ne. }
    destruct (edit_message d msg _); simpl; (split; [done|]); intros id;
      (destruct (Hnew (mkGiveaway msg channel
                 (now + duration * 60000000) item winners user false) id)
         as [?|[? (g' & ? & ->)]]; [by left|right; split; [done|by eexists]]).
Qed.

End Start.

(** C6, as stated, fails: the command started with a duration of 0
    minutes and 0 winners is not rejected; it publishes the announcement
    and persists the row. *)
Lemma start_with_zero_duration_and_winners :
  let r := epicgiveaway Examples.show_time Examples.discord_ok 0 50 "host"
                        "T" "S" 0 "item" 0 10 Examples.empty in
  let g := mkGiveaway 1010 10 0 "item" 0 50 false in
  r.1 = inr tt ∧
  giveaways (db r.2) !! 1 = Some g ∧
  trace r.2 =
    [InteractionResponse "🎉 Giveaway started in <#10>!";
     ChannelSend 10
       (started_embed Examples.show_time "T" "item" 0 0 "S" "host" 0) 1010;
     DbInsertGiveaway 1 g;
     MessageEdit 1010 (SetView 1)].
Proof. vm_compute. by split_and!. Qed.

(** A count beyond the 32-bit column is not rejected by the command
    either: the announcement is published, then the insert raises and no
    row is persisted. *)
Lemma start_with_count_out_of_range :
  let r := epicgiveaway Examples.show_time Examples.discord_ok 0 50 "host"
                        "T" "S" 5 "item" 2147483648 10 Examples.empty in
  r.1 = inl DataError ∧
  db r.2 = db Examples.empty ∧
  trace r.2 =
    [InteractionResponse "🎉 Giveaway started in <#10>!";
     ChannelSend 10
       (started_embed Examples.show_time "T" "item" 2147483648 300000000 "S"
                      "host" 0) 1010].
Proof. vm_compute. by split_and!. Qed.

(** C6 (amended). The command validates neither the duration nor the
    number of winners: for all values of both (among them durations [<= 0]
    and counts [< 1]), once the end time is a representable date, the
    channel accepts the announcement and the store the insert (the count
    fits the 32-bit integer column and the generated id is free), the
    announcement is published and a row with exactly these values and
    [ended = false] is persisted; the only exception left is that of the
    final edit attaching the button. *)
Theorem start_persists_any_arguments (strftime : Z → string) (d : Discord)
    (now user : Z) (display_name title_ sponsor : string) (duration : Z)
    (item : string) (winners channel : Z) (w : World) (msg : Z) :
  let end_t := now + duration * 60000000 in
  let embed :=
    started_embed strftime title_ item winners end_t sponsor display_name now in
  let id := giveaways_id_seq (db w) in
  let g := mkGiveaway msg channel end_t item winners user false in
  -999999999 <= duration `div` 1440 <= 999999999 →
  datetime_min <= end_t <= datetime_max →
  channel_send d channel embed = Some msg →
  int32_min <= winners <= int32_max →
  giveaways (db w) !! id = None →
  ∃ r w',
    epicgiveaway strftime d now user display_name title_ sponsor duration item
                 winners channel w = (r, w') ∧
    (r = inr tt ∨ r = inl HTTPException) ∧
    ChannelSend channel embed msg ∈ trace w' ∧
    DbInsertGiveaway id g ∈ trace w' ∧
    giveaways (db w') !! id = Some g ∧
    winners_count g = winners ∧ end_time g = end_t ∧ ended g = false.
Proof.
  intros end_t embed id g Hdelta Hend Hsend Hint Hfresh.
  destruct (epicgiveaway_ok strftime d now user display_name title_ sponsor
              duration item winners channel w msg Hdelta Hend Hsend Hint Hfresh)
    as (r & w' & Hrun & Hdb & Hcases).
  exists r, w'. split; [done|].
  assert (Hlook : giveaways (db w') !! id = Some g).
  { rewrite Hdb. simpl. apply lookup_insert_eq. }
  fold end_t embed id g in Hcases.
  destruct Hcases as [[-> ->]|[-> ->]]; split_and!; auto; set_solver.
Qed.

(** ** The [ended] flag over the operations of the bot *)

Section Lifecycle.

Variable strftime : Z → string.

Lemma enter_button_giveaways (giveaway_id user_id : Z) (w : World) :
  giveaways (db (enter_button giveaway_id user_id w).2) = giveaways (db w).
Proof. rewrite enter_button_eq. by repeat case_bool_decide. Qed.

Lemma step_kept (w : World) (op : Op) (id : Z) (g : Giveaway) :
  giveaways (db w) !! id = Some g →
  giveaways (db (step strftime w op)) !! id = Some g ∨
  (ended g = false ∧ is_scan op ∧
   giveaways (db (step strftime w op)) !! id = Some (set_ended g)).
Proof.
  intros Hg. unfold step. destruct op as [d now user dn t sp dur item k ch|gid uid|d now];
    simpl run_op.
  - destruct (epicgiveaway_db strftime d now user dn t sp dur item k ch w)
      as [_ H]. destruct (H id) as [->|[Hnone _]]; [by left|congruence].
  - left. by rewrite enter_button_giveaways.
  - destruct (check_giveaways_only_ended d now w) as (_ & _ & H).
    destruct (H id) as [->|[_ ->]]; [by left|]. rewrite Hg. simpl.
    destruct (ended g) eqn:He; [left; by rewrite set_ended_id|by right].
Qed.

Lemma step_created (w : World) (op : Op) (id : Z) (g : Giveaway) :
  giveaways (db w) !! id = None →
  giveaways (db (step strftime w op)) !! id = Some g →
  ended g = false ∧ is_start op.
Proof.
  intros Hnone. unfold step.
  destruct op as [d now user dn t sp dur item k ch|gid uid|d now]; simpl run_op.
  - destruct (epicgiveaway_db strftime d now user dn t sp dur item k ch w)
      as [_ H]. destruct (H id) as [->|[_ (g' & -> & He)]]; [congruence|].
    intros [= <-]. done.
  - rewrite enter_button_giveaways. congruence.
  - destruct (check_giveaways_only_ended d now w) as (_ & _ & H).
    destruct (H id) as [->|[_ ->]]; rewrite Hnone; done.
Qed.

Lemma run_kept (ops : list Op) : ∀ (w : World) (id : Z) (g : Giveaway),
  giveaways (db w) !! id = Some g →
  giveaways (db (run strftime ops w)) !! id = Some g ∨
  (ended g = false ∧
   giveaways (db (run strftime ops w)) !! id = Some (set_ended g)).
Proof.
  induction ops as [|op ops IH]; intros w id g Hg; [by left|].
  change (run strftime (op :: ops) w) with (run strftime ops (step strftime w op)).
  destruct (step_kept w op id g Hg) as [H1|(He & _ & H1)].
  - by apply IH.
  - destruct (IH _ _ _ H1) as [H2|[He2 _]]; [by right|done].
Qed.

(** C2. For every record and every operation of the bot (start command,
    button press, scanner run): a record that does not exist yet can only
    come from the start command and is created with [ended = false]; an
    existing record is still there afterwards, unchanged or, if it was
    open and the operation is a scanner run, with [ended = true] and
    nothing else changed; so over any sequence of operations the flag
    changes at most once, from false to true, and a record seen ended
    stays exactly as it is. *)
Theorem ended_monotonic (w : World) (op : Op) (ops : list Op) (id : Z) :
  match giveaways (db w) !! id with
  | None =>
      ∀ g, giveaways (db (step strftime w op)) !! id = Some g →
           ended g = false ∧ is_start op
  | Some g =>
      (giveaways (db (step strftime w op)) !! id = Some g ∨
       (ended g = false ∧ is_scan op ∧
        giveaways (db (step strftime w op)) !! id = Some (set_ended g))) ∧
      (giveaways (db (run strftime ops w)) !! id = Some g ∨
       (ended g = false ∧
        giveaways (db (run strftime ops w)) !! id = Some (set_ended g))) ∧
      (ended g = true → giveaways (db (run strftime ops w)) !! id = Some g) ∧
      ended (set_ended g) = true
  end.
Proof.
  destruct (giveaways (db w) !! id) as [g|] eqn:Hg.
  - split_and!; [by apply step_kept|by apply run_kept| |done].
    intros He. destruct (run_kept ops w id g Hg) as [?|[? _]]; [done|congruence].
  - intros g. by apply step_created.
Qed.

End Lifecycle.

(** ** Start-up *)

Section StartupProofs.

Variable py_int : string → option Z.

(** C7 (amended). Without a bot token (unset or empty) the process ends
    at start-up before any network activity: by the bare [exit()] after
    the message when the numeric settings parse, by the uncaught
    [ValueError] of [int] otherwise. The connection string is not looked
    at then: with a token the bot logs in whatever [DATABASE_URL] is, no
    terminating action occurs, and the value, absent or not, is handed to
    [create_pool] by [on_ready]. *)
Theorem startup_check (env : Environ) (gw : Gateway) :
  let actions := main py_int env gw in
  (not_ (BOT_TOKEN env) = true →
     Forall (λ a, is_network a = false) actions ∧
     ∃ a, last actions = Some a ∧ terminates a) ∧
  (∀ c m,
     getenv_int py_int (STATUS_CHANNEL_ID env) = inr c →
     getenv_int py_int (UPTIME_MSG_ID env) = inr m →
     (not_ (BOT_TOKEN env) = true →
        actions = [Print "❌ BOT TOKEN missing in environment variables!";
                   SysExit None]) ∧
     (not_ (BOT_TOKEN env) = false →
        actions = BotRun (default "" (BOT_TOKEN env)) ::
                  (if login_ok gw then on_ready env gw else []) ∧
        head (on_ready env gw) = Some (CreatePool (DATABASE_URL env)) ∧
        Forall (λ a, ¬ terminates a) actions)).
Proof.
  intros actions. unfold actions, main. split.
  - intros Hno.
    destruct (getenv_int py_int (STATUS_CHANNEL_ID env)) as [e|c];
      [split; [by repeat constructor|eexists; split; [done|by eexists]]|].
    destruct (getenv_int py_int (UPTIME_MSG_ID env)) as [e|m];
      [split; [by repeat constructor|eexists; split; [done|by eexists]]|].
    rewrite Hno. split; [by repeat constructor|].
    eexists. split; [done|]. by eexists.
  - intros c m -> ->. split; [by intros ->|]. intros ->.
    split_and!; [done|done|].
    assert (Hno : ∀ a, a ∈ on_ready env gw → ¬ terminates a).
    { unfold on_ready. intros a Ha [s Hs].
      destruct (pool_ok gw); set_solver. }
    constructor; [by intros [s Hs]|].
    destruct (login_ok gw); [|constructor]. by apply Forall_forall.
Qed.

End StartupProofs.

(** C7, as stated, fails: with a token and no [DATABASE_URL] the process
    does not terminate at start-up; it logs in, and only then [on_ready]
    passes the absent connection string to [create_pool]. *)
Lemma start_without_database_url :
  main Examples.decimal Examples.no_database_url Examples.gateway_ok =
  [BotRun "token"; CreatePool None; Print "✅ Connected to PostgreSQL";
   Print "✅ Logged in as bot#0001"; ChangePresence "Coded by NotTheRealEpic";
   TreeSync; Print "🔁 Synced 2 commands."; StartLoop "update_uptime";
   StartLoop "check_giveaways"].
Proof. vm_compute. reflexivity. Qed.

(** ** The theorems at concrete inputs *)


Lemma nonpositive_count_reaches_sample_witness :
  winners_count Examples.key <= 0 ∧
  select_due (db Examples.negative) 60000000 = [(1, Examples.key)] ∧
  check_giveaways Examples.discord_ok 60000000 Examples.negative =
    (inl ValueError, Examples.negative).
Proof.
  assert (Hk : winners_count Examples.key <= 0) by (simpl; lia).
  assert (Hdue : select_due (db Examples.negative) 60000000 = [(1, Examples.key)])
    by reflexivity.
  split; [exact Hk|]. split; [exact Hdue|].
  destruct (nonpositive_count_reaches_sample Examples.discord_ok 60000000
              Examples.negative 1 Examples.key Hk)
    as (_ & _ & Hneg).
  destruct Hneg as (_ & Hrow); [simpl; lia|].
  destruct (Hrow eq_refl eq_refl) as (_ & Hfirst & _).
  exact (Hfirst [] Hdue).
Defined.

Lemma join_idempotent_witness :
  is_Some (giveaways (db Examples.two_due) !! 2) ∧
  ∃ w1 w2,
    enter_button 2 101 Examples.two_due = (inr tt, w1) ∧
    enter_button 2 101 w1 = (inr tt, w2) ∧
    db w2 = db w1 ∧
    participant_rows (db w2) 2 101 = 1%nat.
Proof.
  assert (Hg : is_Some (giveaways (db Examples.two_due) !! 2))
    by (exists Examples.skin; reflexivity).
  split; [exact Hg|].
  destruct (join_idempotent Examples.two_due 2 101 Hg)
    as (w1 & w2 & H1 & H2 & _ & _ & Hdb & _ & _ & Hrows & _).
  exists w1, w2. by split_and!.
Defined.

Lemma late_join_accepted_witness :
  giveaways (db Examples.two_due) !! 1 = Some Examples.nitro ∧
  end_time Examples.nitro <= 99000000 ∧
  ended Examples.nitro = false ∧
  ∃ w',
    enter_button 1 777 Examples.two_due = (inr tt, w') ∧
    777 ∈ select_user_ids (db w') 1 ∧
    (1, Examples.nitro) ∈ select_due (db w') 99000000.
Proof.
  assert (Hend : end_time Examples.nitro <= 99000000) by (simpl; lia).
  split; [reflexivity|]. split; [exact Hend|]. split; [reflexivity|].
  destruct (late_join_accepted Examples.two_due 99000000 1 777 Examples.nitro
              eq_refl Hend eq_refl)
    as (w' & Hrun & _ & _ & Hin & _ & Hdue).
  exists w'. by split_and!.
Defined.

Lemma start_persists_any_arguments_witness :
  -999999999 <= (-5) `div` 1440 <= 999999999 ∧
  datetime_min <= 0 + (-5) * 60000000 <= datetime_max ∧
  int32_min <= -3 <= int32_max ∧
  ∃ r w',
    epicgiveaway Examples.show_time Examples.discord_ok 0 50 "host" "T" "S"
                 (-5) "item" (-3) 10 Examples.empty = (r, w') ∧
    giveaways (db w') !! 1 =
      Some (mkGiveaway 1010 10 (-300000000) "item" (-3) 50 false).
Proof.
  assert (Hd : -999999999 <= (-5) `div` 1440 <= 999999999) by (by vm_compute).
  assert (He : datetime_min <= 0 + (-5) * 60000000 <= datetime_max)
    by (by vm_compute).
  assert (Hi : int32_min <= -3 <= int32_max) by (by vm_compute).
  split; [exact Hd|]. split; [exact He|]. split; [exact Hi|].
  destruct (start_persists_any_arguments Examples.show_time Examples.discord_ok
              0 50 "host" "T" "S" (-5) "item" (-3) 10 Examples.empty 1010
              Hd He eq_refl Hi eq_refl)
    as (r & w' & Hrun & _ & _ & _ & Hrow & _).
  exists r, w'. by split.
Defined.

Lemma draw_changes_only_ended_witness :
  2 ≠ 1 ∧
  giveaways
    (db (process_row Examples.discord_ok (1, Examples.nitro) Examples.two_due).2)
    !! 2 = Some Examples.skin.
Proof.
  assert (Hne : 2 ≠ 1) by lia.
  split; [exact Hne|].
  destruct (draw_changes_only_ended Examples.discord_ok 60000000
              Examples.two_due 1 Examples.nitro)
    as (_ & _ & _ & Hother & _).
  rewrite (Hother 2 Hne). reflexivity.
Defined.

Lemma ended_monotonic_witness :
  ended (set_ended Examples.nitro) = true ∧
  giveaways
    (db (run Examples.show_time
           [Scan Examples.discord_ok 60000000; Enter 1 7;
            Start Examples.discord_ok 0 50 "host" "T" "S" 1 "item" 1 10;
            Scan Examples.discord_ok 99000000]
           (closed 1 Examples.nitro not_enough Examples.two_due))) !! 1 =
    Some (set_ended Examples.nitro).
Proof.
  split; [reflexivity|].
  pose proof (ended_monotonic Examples.show_time
                (closed 1 Examples.nitro not_enough Examples.two_due)
                (Enter 1 7)
                [Scan Examples.discord_ok 60000000; Enter 1 7;
                 Start Examples.discord_ok 0 50 "host" "T" "S" 1 "item" 1 10;
                 Scan Examples.discord_ok 99000000] 1) as H.
  change (giveaways (db (closed 1 Examples.nitro not_enough Examples.two_due)) !! 1)
    with (Some (set_ended Examples.nitro)) in H.
  destruct H as (_ & _ & Hkeep & _). apply Hkeep. reflexivity.
Defined.

Lemma startup_check_witness :
  not_ (BOT_TOKEN Examples.no_token) = true ∧
  main Examples.decimal Examples.no_token Examples.gateway_ok =
    [Print "❌ BOT TOKEN missing in environment variables!"; SysExit None].
Proof.
  split; [reflexivity|].
  destruct (startup_check Examples.decimal Examples.no_token Examples.gateway_ok)
    as (_ & H).
  destruct (H 0 0 eq_refl eq_refl) as (Hexit & _).
  apply Hexit. reflexivity.
Defined.


(** * Further properties *)

(** ** A whole scanner run *)

Lemma fair_result_participants (s s' : Store) (id k : Z) (result : Field) :
  participants s' = participants s →
  fair_result s id k result → fair_result s' id k result.
Proof.
  intros Hp. unfold fair_result, select_user_ids. by rewrite Hp.
Qed.

Lemma closings_cons (c : Z * Z * Embed) (cs : list (Z * Z * Embed)) :
  closings (c :: cs) = closings [c] ++ closings cs.
Proof. apply (closings_app [c] cs). Qed.

Lemma for_each_outcome (d : Discord) (rows : list (Z * Giveaway)) :
  NoDup rows.*1 →
  (∀ r, r ∈ rows → reachable d r.2 = true → drawable d r.2) →
  ∀ w, (∀ r, r ∈ rows → giveaways (db w) !! r.1 = Some r.2) →
  ∃ w' results,
    for_each rows (process_row d) w = (inr tt, w') ∧
    trace w' = trace w ++
      closings (zip_with entry (filter (λ r, reachable d r.2 = true) rows) results) ∧
    Forall2 (λ r result, fair_result (db w) r.1 (winners_count r.2) result)
            (filter (λ r, reachable d r.2 = true) rows) results ∧
    (∀ r, r ∈ rows →
       giveaways (db w') !! r.1 =
         Some (if reachable d r.2 then set_ended r.2 else r.2)) ∧
    only_ended rows.*1 (db w) (db w').
Proof.
  induction rows as [|[id row] rows IH]; intros Hnd Hok w Hrows.
  - exists w, []. split_and!; try done.
    + simpl. by rewrite app_nil_r.
    + intros r Hr. by apply elem_of_nil in Hr.
    + apply only_ended_refl.
  - apply NoDup_cons in Hnd as [Hnotin Hnd]. simpl in Hnotin.
    assert (Hok' : ∀ r, r ∈ rows → reachable d r.2 = true → drawable d r.2).
    { intros r Hr. apply Hok. set_solver. }
    assert (Hrow : giveaways (db w) !! id = Some row).
    { apply (Hrows (id, row)). set_solver. }
    assert (Hfresh : ∀ r, r ∈ rows → r.1 ≠ id).
    { intros r Hr Heq. apply Hnotin. rewrite <- Heq.
      apply list_elem_of_fmap. by exists r. }
    rewrite for_each_cons.
    destruct (reachable d row) eqn:Hreach.
    + (* the row is drawn *)
      destruct (Hok (id, row)) as [Hedit Hk]; [set_solver|done|]. simpl in *.
      assert (Hreach' := Hreach).
      apply andb_true_iff in Hreach' as [Hch Hmsg].
      destruct (process_row_closes d w id row Hrow Hch Hmsg Hedit Hk)
        as (res & w1 & Hrun & Htr & Hdb & Hrow1 & Hfair).
      rewrite Hrun.
      destruct (IH Hnd Hok' w1) as (w' & results & Hrest & Htr' & Hfair' & Hlook & Honly).
      { intros r Hr. rewrite Hdb, lookup_mark_ended_ne by (symmetry; by apply Hfresh).
        apply Hrows. set_solver. }
      exists w', (res :: results). rewrite filter_cons_True by done.
      split_and!; try done.
      * rewrite Htr', Htr. simpl zip_with. rewrite (closings_cons (entry _ _)).
        by rewrite <- !app_assoc.
      * constructor; [done|].
        eapply Forall2_impl; [exact Hfair'|]. intros r result.
        apply fair_result_participants. by rewrite Hdb.
      * intros r Hr. apply elem_of_cons in Hr as [->|Hr]; [|by apply Hlook].
        simpl. rewrite Hreach.
        destruct Honly as (_ & _ & Hg).
        destruct (Hg id) as [->|[_ ->]]; rewrite Hrow1; done.
      * apply (only_ended_trans _ _ (db w1)).
        -- eapply only_ended_mono; [|rewrite Hdb; apply only_ended_mark].
           set_solver.
        -- eapply only_ended_mono; [|exact Honly]. set_solver.
    + (* the row is passed over *)
      rewrite process_row_skips.
      2:{ apply andb_false_iff in Hreach. done. }
      destruct (IH Hnd Hok' w) as (w' & results & Hrest & Htr' & Hfair' & Hlook & Honly).
      { intros r Hr. apply Hrows. set_solver. }
      exists w', results.
      rewrite filter_cons_False by (simpl; by rewrite Hreach).
      split_and!; try done.
      * intros r Hr. apply elem_of_cons in Hr as [->|Hr]; [|by apply Hlook].
        simpl. rewrite Hreach.
        destruct Honly as (_ & _ & Hg).
        destruct (Hg id) as [->|[Hin _]]; [done|].
        apply list_elem_of_fmap in Hin as (r & -> & Hr). by destruct (Hfresh r Hr).
      * eapply only_ended_mono; [|exact Honly]. set_solver.
Qed.

Lemma select_due_NoDup (s : Store) (now : Z) : NoDup (select_due s now).*1.
Proof.
  unfold select_due. eapply NoDup_fmap_fst.
  - intros id r1 r2 H1%list_elem_of_filter H2%list_elem_of_filter.
    destruct H1 as [_ H1%elem_of_map_to_list],
             H2 as [_ H2%elem_of_map_to_list]. congruence.
  - apply NoDup_filter, NoDup_map_to_list.
Qed.

Lemma scan_outcome (d : Discord) (now : Z) (w : World) :
  (∀ r, r ∈ select_due (db w) now → reachable d r.2 = true → drawable d r.2) →
  ∃ w' results,
    check_giveaways d now w = (inr tt, w') ∧
    trace w' = trace w ++
      closings (zip_with entry
                  (filter (λ r, reachable d r.2 = true) (select_due (db w) now))
                  results) ∧
    Forall2 (λ r result, fair_result (db w) r.1 (winners_count r.2) result)
            (filter (λ r, reachable d r.2 = true) (select_due (db w) now))
            results ∧
    (∀ r, r ∈ select_due (db w) now →
       giveaways (db w') !! r.1 =
         Some (if reachable d r.2 then set_ended r.2 else r.2)) ∧
    only_ended (select_due (db w) now).*1 (db w) (db w').
Proof.
  intros Hok. unfold check_giveaways, bind, get_db.
  apply for_each_outcome; [apply select_due_NoDup|done|].
  intros [id row] Hin. by apply elem_of_select_due in Hin as (? & _).
Qed.

Lemma process_row_accepting (d : Discord) (id : Z) (row : Giveaway) (w : World) :
  Forall (accepted d)
         (drop (length (trace w))
               (trace (process_row (accepting d) (id, row) w).2)) →
  process_row d (id, row) w = process_row (accepting d) (id, row) w.
Proof.
  rewrite !process_row_eq. simpl.
  destruct (negb (get_channel d (channel_id row))); [done|].
  destruct (negb (fetch_message d (channel_id row) (message_id row))); [done|].
  destruct (result_field_cases (select_user_ids (db w) id) (winners_count row) w)
    as [[_ ->]|[[_ ->]|[_ (ws & w1 & -> & _ & Htr & _)]]]; [|done|]; simpl.
  - rewrite drop_app_length. intros Hacc. apply Forall_cons in Hacc as [Hacc _].
    simpl in Hacc. by rewrite Hacc.
  - rewrite Htr, drop_app_length. intros Hacc.
    apply Forall_cons in Hacc as [Hacc _]. simpl in Hacc. by rewrite Hacc.
Qed.

Lemma for_each_accepting (d : Discord) (rows : list (Z * Giveaway)) : ∀ w,
  Forall (accepted d)
         (drop (length (trace w))
               (trace (for_each rows (process_row (accepting d)) w).2)) →
  for_each rows (process_row d) w =
  for_each rows (process_row (accepting d)) w.
Proof.
  induction rows as [|[id row] rows IH]; intros w; [done|].
  rewrite !for_each_cons.
  assert (Hhead : ∃ added,
    trace (process_row (accepting d) (id, row) w).2 = trace w ++ added).
  { destruct (process_row_trace (accepting d) id row w) as [H|[result H]].
    - exists []. by rewrite app_nil_r.
    - by eexists. }
  destruct Hhead as (added & Htr1).
  pose proof (process_row_accepting d id row w) as Hsame.
  destruct (process_row (accepting d) (id, row) w) as [[e|[]] w1]; simpl in *.
  - intros Hacc. by rewrite Hsame.
  - destruct (for_each_trace (accepting d) rows w1) as (cs & Htr2 & _).
    rewrite Htr2, Htr1, <- app_assoc, drop_app_length.
    intros [Hacc1 Hacc2]%Forall_app.
    rewrite Hsame by (by rewrite Htr1, drop_app_length).
    apply IH. by rewrite Htr2, drop_app_length.
Qed.

(** The outcome of a run that meets no refused rewrite and no negative
    count. *)
Lemma scan_outcome_accepted (d : Discord) (now : Z) (w : World) :
  (∀ r, r ∈ select_due (db w) now → reachable d r.2 = true →
        0 <= winners_count r.2) →
  rewrites_accepted d now w →
  ∃ w' results,
    check_giveaways d now w = (inr tt, w') ∧
    trace w' = trace w ++
      closings (zip_with entry
                  (filter (λ r, reachable d r.2 = true) (select_due (db w) now))
                  results) ∧
    Forall2 (λ r result, fair_result (db w) r.1 (winners_count r.2) result)
            (filter (λ r, reachable d r.2 = true) (select_due (db w) now))
            results ∧
    (∀ r, r ∈ select_due (db w) now →
       giveaways (db w') !! r.1 =
         Some (if reachable d r.2 then set_ended r.2 else r.2)) ∧
    only_ended (select_due (db w) now).*1 (db w) (db w').
Proof.
  intros Hcount Hacc.
  assert (Hsame : check_giveaways d now w = check_giveaways (accepting d) now w).
  { unfold check_giveaways, bind, get_db. apply for_each_accepting, Hacc. }
  rewrite Hsame. apply (scan_outcome (accepting d) now w).
  intros r Hr Hreach. split; [done|]. by apply Hcount.
Qed.

(** X1. A scanner run in which every rewrite the run attempts is accepted
    and every due row whose announcement can be reached has a count [>= 0]
    returns normally: the rows whose channel or announcement is missing are
    passed over and stay as they are, every other due row is closed, in the
    order fetched, with a result that is right for its participants; rows
    that are not due and the participants are untouched. *)
Theorem scan_draws_every_reachable_row (d : Discord) (now : Z) (w : World) :
  (∀ r, r ∈ select_due (db w) now → reachable d r.2 = true →
        0 <= winners_count r.2) →
  rewrites_accepted d now w →
  ∃ w' results,
    let drawn := filter (λ r, reachable d r.2 = true) (select_due (db w) now) in
    check_giveaways d now w = (inr tt, w') ∧
    trace w' = trace w ++ closings (zip_with entry drawn results) ∧
    Forall2 (λ r result, fair_result (db w) r.1 (winners_count r.2) result)
            drawn results ∧
    (∀ id row, (id, row) ∈ select_due (db w) now →
       giveaways (db w') !! id =
         Some (if reachable d row then set_ended row else row)) ∧
    (∀ id, id ∉ (select_due (db w) now).*1 →
       giveaways (db w') !! id = giveaways (db w) !! id) ∧
    participants (db w') = participants (db w).
Proof.
  intros Hcount Hacc.
  destruct (scan_outcome_accepted d now w Hcount Hacc)
    as (w' & results & Hrun & Htr & Hfair & Hlook & Hp & _ & Hg).
  exists w', results. split_and!; try done.
  - intros id row Hin. apply (Hlook (id, row) Hin).
  - intros id Hid. destruct (Hg id) as [?|[? _]]; done.
Qed.

(** X2. After such a run the rows still due are exactly the due rows
    that could not be reached; when every due row was reached, a second
    run at the same store time finds nothing and changes nothing, whatever
    Discord answers. *)
Theorem scan_leaves_unreachable_rows_due (d : Discord) (now : Z) (w : World) :
  (∀ r, r ∈ select_due (db w) now → reachable d r.2 = true →
        0 <= winners_count r.2) →
  rewrites_accepted d now w →
  ∃ w',
    check_giveaways d now w = (inr tt, w') ∧
    (∀ id row, (id, row) ∈ select_due (db w') now ↔
               (id, row) ∈ select_due (db w) now ∧ reachable d row = false) ∧
    ((∀ r, r ∈ select_due (db w) now → reachable d r.2 = true) →
     ∀ d', check_giveaways d' now w' = (inr tt, w')).
Proof.
  intros Hcount Hacc.
  destruct (scan_outcome_accepted d now w Hcount Hacc)
    as (w' & results & Hrun & _ & _ & Hlook & _ & _ & Hg).
  assert (Hiff : ∀ id row, (id, row) ∈ select_due (db w') now ↔
    (id, row) ∈ select_due (db w) now ∧ reachable d row = false).
  { intros id row. rewrite !elem_of_select_due. split.
    - intros (Hrow' & Hend & Hopen).
      destruct (Hg id) as [Hsame|[_ Hset]].
      + rewrite Hsame in Hrow'.
        assert (Hdue : (id, row) ∈ select_due (db w) now)
          by (by apply elem_of_select_due).
        specialize (Hlook _ Hdue). simpl in Hlook.
        rewrite Hsame, Hrow' in Hlook.
        destruct (reachable d row); [|done].
        injection Hlook as Hlook. rewrite Hlook in Hopen. done.
      + rewrite Hrow' in Hset. destruct (giveaways (db w) !! id) as [g|]; [|done].
        injection Hset as ->. done.
    - intros [(Hrow & Hend & Hopen) Hun].
      assert (Hdue : (id, row) ∈ select_due (db w) now)
        by (by apply elem_of_select_due).
      specialize (Hlook _ Hdue). simpl in Hlook. rewrite Hun in Hlook. done. }
  exists w'. split_and!; try done.
  intros Hall d'.
  assert (Hnone : select_due (db w') now = []).
  { apply elem_of_nil_inv. intros [id row] Hin. apply Hiff in Hin as [Hin Hun].
    specialize (Hall _ Hin). simpl in Hall. congruence. }
  unfold check_giveaways, bind, get_db. by rewrite Hnone.
Qed.

(** ** Edge cases of the draw *)

(** X4. When the count equals the number of participants, the winners
    are all the participants, each once (in an order the generator
    decides). *)
Theorem everyone_wins_when_count_matches (user_ids : list Z) (w : World) :
  ∃ winners w1,
    result_field user_ids (Z.of_nat (length user_ids)) w =
      (inr (winners_field winners), w1) ∧
    winners ≡ₚ user_ids ∧
    db w1 = db w ∧ trace w1 = trace w.
Proof.
  unfold result_field. rewrite bool_decide_false by lia.
  unfold bind, random_sample. rewrite bool_decide_true by lia.
  rewrite Nat2Z.id.
  destruct (sample_pool_spec (length user_ids) user_ids w)
    as (ws & left & w1 & -> & Hdb & Htr & _ & Hlen & Hperm); [done|].
  exists ws, w1. split_and!; try done.
  assert (left = []) as ->.
  { apply length_zero_iff_nil. apply Permutation_length in Hperm.
    rewrite length_app in Hperm. lia. }
  by rewrite app_nil_r in Hperm.
Qed.

Lemma mentions_empty (winners : list Z) : mentions winners = "" ↔ winners = [].
Proof.
  split; [|by intros ->].
  destruct winners as [|u [|v winners]]; [done| |]; simpl; discriminate.
Qed.

(** X5. In the closing embed the prize field is never empty (an empty
    prize shows as "Unknown"), the winners field is empty exactly when
    nobody was drawn, and a count of 0 gives that empty winners field
    without using the generator. *)
Theorem closing_embed_fields (p : string) (user_ids winners : list Z) (w : World) :
  prize_or_unknown p ≠ "" ∧
  (value (winners_field winners) = "" ↔ winners = []) ∧
  result_field user_ids 0 w = (inr (winners_field []), w).
Proof.
  split_and!.
  - unfold prize_or_unknown. case_bool_decide; done.
  - apply mentions_empty.
  - unfold result_field. rewrite bool_decide_false by lia.
    unfold bind, random_sample. rewrite bool_decide_true by lia. done.
Qed.

(** X6. Computing the result raises only for a negative count: the
    exception is then [ValueError] and nothing has happened. In particular
    [random.sample] is never asked for more winners than participants. *)
Theorem result_raises_only_for_negative_count (user_ids : list Z) (k : Z)
    (w w' : World) (e : Exn) :
  result_field user_ids k w = (inl e, w') →
  k < 0 ∧ e = ValueError ∧ w' = w.
Proof.
  destruct (result_field_cases user_ids k w)
    as [[_ ->]|[[Hneg ->]|[_ (ws & w1 & -> & _)]]]; [done| |done].
  by intros [= <- <-].
Qed.

(** ** Joining and starting *)

Lemma enter_button_store (giveaway_id user_id : Z) (w : World) :
  db (enter_button giveaway_id user_id w).2 = db w ∨
  (is_Some (giveaways (db w) !! giveaway_id) ∧
   db (enter_button giveaway_id user_id w).2 =
     mkStore (giveaways (db w))
             ({[ (giveaway_id, user_id) ]} ∪ participants (db w))
             (giveaways_id_seq (db w))).
Proof.
  rewrite enter_button_eq. case_bool_decide; [by left|].
  case_bool_decide; [by right|by left].
Qed.

(** X7. In a consistent store, a press for a giveaway id that is not
    stored raises the foreign-key error: no row is inserted and no
    confirmation is sent. *)
Theorem enter_unknown_giveaway (w : World) (giveaway_id user_id : Z) :
  store_ok (db w) →
  giveaways (db w) !! giveaway_id = None →
  enter_button giveaway_id user_id w = (inl ForeignKeyViolationError, w).
Proof.
  intros [_ Hfk] Hnone. rewrite enter_button_eq.
  rewrite bool_decide_false.
  - rewrite bool_decide_false; [done|]. rewrite Hnone. by intros [? ?].
  - intros Hin. apply Hfk in Hin. simpl in Hin. rewrite Hnone in Hin.
    by destruct Hin.
Qed.

Section StartMore.

Variable strftime : Z → string.

Lemma epicgiveaway_store (d : Discord) (now user : Z)
    (display_name title_ sponsor : string) (duration : Z) (item : string)
    (winners channel : Z) (w : World) :
  let s := db w in
  let s' := db (epicgiveaway strftime d now user display_name title_ sponsor
                             duration item winners channel w).2 in
  s' = s ∨
  s' = mkStore (giveaways s) (participants s) (giveaways_id_seq s + 1) ∨
  (giveaways s !! giveaways_id_seq s = None ∧
   ∃ g, ended g = false ∧
        s' = mkStore (<[giveaways_id_seq s := g]> (giveaways s))
                     (participants s) (giveaways_id_seq s + 1)).
Proof.
  unfold epicgiveaway, bind, emit, timedelta_minutes, datetime_add.
  case_bool_decide; [|by left]. unfold ret.
  case_bool_decide; [|by left].
  unfold do_send, bind.
  destruct (channel_send d channel _) as [msg|]; [|by left].
  unfold emit, ret, insert_giveaway.
  case_bool_decide; [|by left].
  unfold bind, get_db. simpl.
  destruct (giveaways (db w) !! giveaways_id_seq (db w)) as [g0|] eqn:Hfresh.
  - right. by left.
  - right. right. split; [done|].
    unfold put_db, emit, ret, do_edit. simpl.
    destruct (edit_message d msg _); simpl; (eexists; split; [|reflexivity]; done).
Qed.

(** X9. The start command acknowledges before it does anything: when
    the end time overflows or the channel rejects the announcement, the
    command raises after the invoker was told the giveaway started, and
    the store is unchanged. *)
Theorem start_failure_after_acknowledgement (d : Discord) (now user : Z)
    (display_name title_ sponsor : string) (duration : Z) (item : string)
    (winners channel : Z) (w : World) :
  let end_t := now + duration * 60000000 in
  let embed :=
    started_embed strftime title_ item winners end_t sponsor display_name now in
  ¬ (-999999999 <= duration `div` 1440 <= 999999999) ∨
  ¬ (datetime_min <= end_t <= datetime_max) ∨
  channel_send d channel embed = None →
  ∃ e w',
    epicgiveaway strftime d now user display_name title_ sponsor duration item
                 winners channel w = (inl e, w') ∧
    (e = OverflowError ∨ e = HTTPException) ∧
    db w' = db w ∧
    trace w' = trace w ++
      [InteractionResponse ("🎉 Giveaway started in <#" +:+ pretty channel +:+ ">!")].
Proof.
  intros end_t embed Hfail.
  unfold epicgiveaway, bind, emit, timedelta_minutes, datetime_add.
  case_bool_decide as Hd.
  2:{ eexists _, _. split; [done|]. split; [by left|]. by split. }
  unfold ret. fold end_t.
  case_bool_decide as He.
  2:{ eexists _, _. split; [done|]. split; [by left|]. by split. }
  destruct Hfail as [?|[?|Hsend]]; [done|done|].
  unfold do_send, bind. fold embed. rewrite Hsend.
  eexists _, _. split; [done|]. split; [by right|]. by split.
Qed.

Lemma step_participants (w : World) (op : Op) :
  participants (db w) ⊆ participants (db (step strftime w op)) ∧
  (∀ p, p ∈ participants (db (step strftime w op)) →
        p ∈ participants (db w) ∨ op = Enter p.1 p.2).
Proof.
  unfold step.
  destruct op as [d now user dn t sp dur item k ch|gid uid|d now]; simpl run_op.
  - destruct (epicgiveaway_store d now user dn t sp dur item k ch w)
      as [->|[->|(_ & g & _ & ->)]]; simpl; split; auto.
  - destruct (enter_button_store gid uid w) as [->|[_ ->]]; simpl;
      [split; auto|split; [set_solver|]].
    intros p Hp. apply elem_of_union in Hp as [->%elem_of_singleton|Hp];
      [by right|by left].
  - destruct (check_giveaways_only_ended d now w) as (-> & _). split; auto.
Qed.

Lemma step_store_ok (w : World) (op : Op) :
  store_ok (db w) →
  store_ok (db (step strftime w op)) ∧
  giveaways_id_seq (db w) <= giveaways_id_seq (db (step strftime w op)).
Proof.
  intros [Hseq Hfk]. unfold step.
  destruct op as [d now user dn t sp dur item k ch|gid uid|d now]; simpl run_op.
  - destruct (epicgiveaway_store d now user dn t sp dur item k ch w)
      as [->|[->|(Hfresh & g & _ & ->)]]; simpl.
    + split; [by split|lia].
    + split; [split; [|done]|lia].
      intros id Hid. specialize (Hseq id Hid). simpl in *. lia.
    + split; [split|lia].
      * intros id Hid. simpl in *.
        destruct (decide (giveaways_id_seq (db w) = id)) as [<-|Hne]; [lia|].
        rewrite lookup_insert_ne in Hid by done. specialize (Hseq id Hid). lia.
      * intros p Hp. simpl in *. specialize (Hfk p Hp).
        destruct (decide (giveaways_id_seq (db w) = p.1)) as [<-|Hne].
        -- by rewrite lookup_insert_eq.
        -- by rewrite lookup_insert_ne.
  - destruct (enter_button_store gid uid w) as [->|[Hg ->]]; simpl.
    + split; [by split|lia].
    + split; [split; [done|]|lia].
      intros p Hp. simpl in *.
      apply elem_of_union in Hp as [->%elem_of_singleton|Hp]; [done|by apply Hfk].
  - destruct (check_giveaways_only_ended d now w) as (Hp & Hq & Hg).
    assert (Hsome : ∀ id, is_Some (giveaways (db (check_giveaways d now w).2) !! id) ↔
                          is_Some (giveaways (db w) !! id)).
    { intros id. destruct (Hg id) as [->|[_ ->]]; [done|].
      by rewrite fmap_is_Some. }
    split; [split|lia].
    + intros id Hid. rewrite Hq. apply Hseq. by apply Hsome.
    + intros p Hp'. rewrite Hp in Hp'. apply Hsome. by apply Hfk.
Qed.

Lemma run_cons (op : Op) (ops : list Op) (w : World) :
  run strftime (op :: ops) w = run strftime ops (step strftime w op).
Proof. done. Qed.

Lemma run_store_ok (ops : list Op) : ∀ w,
  store_ok (db w) →
  store_ok (db (run strftime ops w)) ∧
  giveaways_id_seq (db w) <= giveaways_id_seq (db (run strftime ops w)).
Proof.
  induction ops as [|op ops IH]; intros w Hok; [split; [done|simpl; lia]|].
  rewrite run_cons.
  destruct (step_store_ok w op Hok) as (Hok1 & Hseq1).
  destruct (IH _ Hok1) as (Hok2 & Hseq2). split; [done|lia].
Qed.

(** X11. Every sequence of operations keeps the store consistent:
    stored ids stay below the id sequence, every participant row
    references a stored giveaway, the sequence never goes back, and the
    next id is free, so the insert of the start command cannot hit the
    primary key. *)
Theorem store_invariants (ops : list Op) (w : World) :
  store_ok (db w) →
  store_ok (db (run strftime ops w)) ∧
  giveaways (db (run strftime ops w)) !!
    giveaways_id_seq (db (run strftime ops w)) = None ∧
  giveaways_id_seq (db w) <= giveaways_id_seq (db (run strftime ops w)).
Proof.
  intros Hok.
  destruct (run_store_ok ops w Hok) as ([Hseq Hfk] & Hle).
  split_and!; [done| |done].
  destruct (giveaways _ !! _) eqn:Hl; [|done].
  assert (Hs : is_Some (giveaways (db (run strftime ops w)) !!
                          giveaways_id_seq (db (run strftime ops w))))
    by (by rewrite Hl).
  apply Hseq in Hs. lia.
Qed.

(** X12. No operation removes a participant row, and a row that appears
    was inserted by a press of the button for that giveaway and user. *)
Theorem participants_only_grow (ops : list Op) (w : World) :
  participants (db w) ⊆ participants (db (run strftime ops w)) ∧
  (∀ giveaway_id user_id,
     (giveaway_id, user_id) ∈ participants (db (run strftime ops w)) →
     (giveaway_id, user_id) ∈ participants (db w) ∨
     Enter giveaway_id user_id ∈ ops).
Proof.
  revert w. induction ops as [|op ops IH]; intros w; [split; auto|].
  rewrite run_cons.
  destruct (step_participants w op) as (Hsub1 & Hnew1).
  destruct (IH (step strftime w op)) as (Hsub2 & Hnew2).
  split; [set_solver|].
  intros gid uid Hin. destruct (Hnew2 gid uid Hin) as [Hp1|Hop]; [|right; set_solver].
  destruct (Hnew1 _ Hp1) as [?| ->]; [by left|right; set_solver].
Qed.

Lemma run_app (ops1 ops2 : list Op) (w : World) :
  run strftime (ops1 ++ ops2) w = run strftime ops2 (run strftime ops1 w).
Proof. unfold run. apply foldl_app. Qed.

Lemma run_enter_all (id : Z) (users : list Z) : ∀ w,
  is_Some (giveaways (db w) !! id) →
  giveaways (db (run strftime (enter_all id users) w)) = giveaways (db w) ∧
  participants (db (run strftime (enter_all id users) w)) =
    list_to_set ((λ uid, (id, uid)) <$> users) ∪ participants (db w).
Proof.
  induction users as [|uid users IH]; intros w Hg.
  - split; [done|]. simpl. set_solver.
  - unfold enter_all. rewrite fmap_cons, run_cons. fold (enter_all id users).
    destruct (enter_button_accepts w id uid Hg) as (w1 & Hrun & _ & Hp & Hgs).
    assert (Hstep : step strftime w (Enter id uid) = w1).
    { unfold step. simpl. by rewrite Hrun. }
    rewrite Hstep.
    destruct (IH w1) as (Hgs' & Hp'); [by rewrite Hgs|].
    split; [by rewrite Hgs', Hgs|]. rewrite Hp', Hp. simpl. set_solver.
Qed.

(** X3. From the start command to the draw: a giveaway started in a
    consistent store with a count that fits its column, then entered by
    the users of [users] (in any order, repetitions allowed), then scanned
    after its end time by a run that reaches its announcement, attempts no
    refused rewrite and meets no reachable due row with a negative count,
    is closed; its announcement is rewritten with [winners_count] distinct
    winners taken from [users] when at least that many different users
    entered, and with the not-enough notice otherwise. *)
Theorem giveaway_lifecycle (d d' : Discord) (now now' user : Z)
    (display_name title_ sponsor : string) (duration : Z) (item : string)
    (winners channel : Z) (users : list Z) (w : World) (msg : Z) :
  let end_t := now + duration * 60000000 in
  let embed :=
    started_embed strftime title_ item winners end_t sponsor display_name now in
  let id := giveaways_id_seq (db w) in
  let g := mkGiveaway msg channel end_t item winners user false in
  let w2 := run strftime
              ([Start d now user display_name title_ sponsor duration item
                      winners channel] ++ enter_all id users)
              w in
  let w' := run strftime
              ([Start d now user display_name title_ sponsor duration item
                      winners channel] ++ enter_all id users ++ [Scan d' now'])
              w in
  store_ok (db w) →
  -999999999 <= duration `div` 1440 <= 999999999 →
  datetime_min <= end_t <= datetime_max →
  channel_send d channel embed = Some msg →
  int32_min <= winners <= int32_max →
  end_t <= now' →
  reachable d' g = true →
  (∀ r, r ∈ select_due (db w2) now' → reachable d' r.2 = true →
        0 <= winners_count r.2) →
  rewrites_accepted d' now' w2 →
  giveaways (db w') !! id = Some (set_ended g) ∧
  ∃ result,
    MessageEdit msg (SetEmbedClearView (ended_embed item result)) ∈ trace w' ∧
    (winners <= Z.of_nat (length (remove_dups users)) →
       ∃ ws, result = winners_field ws ∧ Z.of_nat (length ws) = winners ∧
             NoDup ws ∧ ws ⊆ users) ∧
    (Z.of_nat (length (remove_dups users)) < winners → result = not_enough).
Proof.
  intros end_t embed id g w2 w' Hok Hdelta Hend Hsend Hint Hdue Hreach
         Hcount Hacc.
  assert (Hfresh : giveaways (db w) !! id = None).
  { destruct (giveaways (db w) !! id) eqn:Hl; [|done].
    destruct Hok as [Hseq _]. specialize (Hseq id). rewrite Hl in Hseq.
    unfold id in Hseq. assert (Hlt := Hseq ltac:(by eexists)). lia. }
  assert (Hnobody : ∀ uid, (id, uid) ∉ participants (db w)).
  { intros uid Hin. destruct Hok as [_ Hfk]. apply Hfk in Hin. simpl in Hin.
    rewrite Hfresh in Hin. by destruct Hin. }
  (* the start command *)
  destruct (epicgiveaway_ok strftime d now user display_name title_ sponsor
              duration item winners channel w msg Hdelta Hend Hsend Hint Hfresh)
    as (r & w1 & Hrun1 & Hdb1 & _).
  fold end_t embed id g in Hdb1.
  assert (Hstep1 : run strftime
    [Start d now user display_name title_ sponsor duration item winners channel]
    w = w1) by (unfold run, step; simpl; by rewrite Hrun1).
  (* the presses *)
  destruct (run_enter_all id users w1) as (Hgs2 & Hp2).
  { rewrite Hdb1. simpl. rewrite lookup_insert_eq. by eexists. }
  assert (Hw2 : w2 = run strftime (enter_all id users) w1).
  { unfold w2. by rewrite run_app, Hstep1. }
  rewrite <- Hw2 in Hgs2, Hp2.
  assert (Hrow2 : giveaways (db w2) !! id = Some g).
  { rewrite Hgs2, Hdb1. simpl. by rewrite lookup_insert_eq. }
  assert (Hin2 : ∀ uid, (id, uid) ∈ participants (db w2) ↔ uid ∈ users).
  { intros uid. rewrite Hp2, Hdb1. simpl.
    rewrite elem_of_union, elem_of_list_to_set, list_elem_of_fmap. split.
    - intros [(u & [= ->] & Hu)|Hin]; [done|by destruct (Hnobody uid)].
    - intros Hu. left. by exists uid. }
  assert (Hperm : select_user_ids (db w2) id ≡ₚ remove_dups users).
  { apply NoDup_Permutation; [apply select_user_ids_NoDup|apply NoDup_remove_dups|].
    intros uid. by rewrite elem_of_select_user_ids, Hin2, elem_of_remove_dups. }
  (* the scanner run *)
  assert (Hdue2 : (id, g) ∈ select_due (db w2) now')
    by (by apply elem_of_select_due).
  destruct (scan_outcome_accepted d' now' w2 Hcount Hacc)
    as (w3 & results & Hrun3 & Htr3 & Hfair & Hlook & _).
  assert (Hstep3 : run strftime [Scan d' now'] w2 = w3)
    by (unfold run, step; simpl; by rewrite Hrun3).
  assert (Hw' : w' = w3).
  { unfold w'. rewrite app_assoc, run_app. fold w2. exact Hstep3. }
  clearbody w' w2. subst w'. split.
  { specialize (Hlook _ Hdue2). simpl in Hlook. by rewrite Hreach in Hlook. }
  assert (Hdrawn : (id, g) ∈ filter (λ r, reachable d' r.2 = true)
                                     (select_due (db w2) now'))
    by (by apply list_elem_of_filter).
  apply list_elem_of_lookup in Hdrawn as [i Hi].
  destruct (Forall2_lookup_l _ _ _ _ _ Hfair Hi) as (result & Hres & Hf).
  exists result. split_and!.
  - rewrite Htr3. apply elem_of_app. right. unfold closings.
    apply list_elem_of_bind. exists (entry (id, g) result). split; [set_solver|].
    apply list_elem_of_lookup. exists i. by rewrite lookup_zip_with, Hi, Hres.
  - destruct Hf as [Hwin _]. simpl in Hwin. intros Hk.
    destruct Hwin as (ws & -> & Hlen & Hnd & Hsub).
    { by rewrite Hperm. }
    exists ws. split_and!; try done. intros uid Huid. by apply Hin2, Hsub.
  - destruct Hf as [_ Hfew]. simpl in Hfew. intros Hk. apply Hfew.
    by rewrite Hperm.
Qed.

End StartMore.

(** ** The uptime display *)

Lemma string_length_app (s1 s2 : string) :
  String.length (s1 +:+ s2) = (String.length s1 + String.length s2)%nat.
Proof.
  induction s1 as [|c s1 IH]; [done|].
  change (String c s1 +:+ s2) with (String c (s1 +:+ s2)). simpl. by rewrite IH.
Qed.

Lemma fmt02_length (n : Z) : 0 <= n < 100 → String.length (fmt02 n) = 2%nat.
Proof.
  intros Hn.
  assert (Hall : Forall (λ n, String.length (fmt02 n) = 2%nat) (seqZ 0 100)).
  { apply (bool_decide_unpack _). by vm_compute. }
  rewrite Forall_forall in Hall. apply Hall, elem_of_seqZ. lia.
Qed.

(** X13. For the difference of two datetimes, the hours, minutes and
    seconds [format_uptime] prints are in range, together with the days
    they add up to the elapsed whole seconds (rounded down), and the days
    are negative exactly when the clock went back. *)
Theorem uptime_parts_sound (a b : Z) :
  let '(d, hours, minutes, secs) := uptime_parts (datetime_sub b a) in
  0 <= hours < 24 ∧ 0 <= minutes < 60 ∧ 0 <= secs < 60 ∧
  ((d * 24 + hours) * 60 + minutes) * 60 + secs = (b - a) `div` 1000000 ∧
  (0 <= d ↔ a <= b).
Proof.
  unfold uptime_parts, datetime_sub, divmod. simpl.
  Z.to_euclidean_division_equations. lia.
Qed.

(** X14. For an uptime from 0 to under 100 days the text has the fixed
    shape [DDd:HHh:MMm:SSs], 15 characters. *)
Theorem format_uptime_length (a b : Z) :
  0 <= b - a < 100 * 86400000000 →
  String.length (format_uptime (datetime_sub b a)) = 15%nat.
Proof.
  intros Hab. pose proof (uptime_parts_sound a b) as Hparts.
  unfold format_uptime.
  destruct (uptime_parts (datetime_sub b a)) as [[[d hours] minutes] secs].
  destruct Hparts as (Hh & Hm & Hs & Hsum & Hd).
  assert (0 <= d < 100).
  { split; [apply Hd; lia|].
    assert ((b - a) `div` 1000000 < 100 * 86400) by
      (Z.to_euclidean_division_equations; lia).
    lia. }
  rewrite !string_length_app, !fmt02_length by lia. done.
Qed.

Section UptimeProofs.

Variable strftime_started strftime_last : Z → string.

Lemma update_uptime_eq (cfg : Config) (d : Discord)
    (edit_embed : Z → Embed → bool) (now : Z) (st : Status) :
  let e := uptime_embed strftime_started strftime_last cfg (start_time st) now in
  let oops x := StatusPrint "❌ Uptime update error: " x in
  update_uptime strftime_started strftime_last cfg d edit_embed now st =
  if negb (get_channel d (status_channel_id cfg)) then (inr tt, st)
  else match status_message st with
       | Some msg =>
           (inr tt, mkStatus (start_time st) (Some msg)
                     (console st ++ [if edit_embed msg e then StatusEdit msg e
                                     else oops HTTPException]))
       | None =>
           if fetch_message d (status_channel_id cfg) (uptime_msg_id cfg) then
             (inr tt, mkStatus (start_time st) (Some (uptime_msg_id cfg))
                       (console st ++
                          [if edit_embed (uptime_msg_id cfg) e
                           then StatusEdit (uptime_msg_id cfg) e
                           else oops HTTPException]))
           else
             (inr tt, mkStatus (start_time st) None
                       (console st ++ [oops NotFound]))
       end.
Proof.
  intros e oops. subst e oops.
  unfold update_uptime, ubind, cached_status_message, edit_status.
  destruct (get_channel d _); simpl; [|done].
  destruct st as [t0 [msg|] out]; simpl.
  - by destruct (edit_embed msg _).
  - destruct (fetch_message d _ _); simpl; [|done].
    by destruct (edit_embed _ _).
Qed.

(** X15. [update_uptime] never raises: without the status channel in
    the cache it does nothing at all; with it, it logs exactly one thing,
    the edit or the line for the caught exception; the start time is kept
    and the cached message changes only from none to [UPTIME_MSG_ID], after
    a successful fetch. *)
Theorem update_uptime_never_raises (cfg : Config) (d : Discord)
    (edit_embed : Z → Embed → bool) (now : Z) (st : Status) :
  ∃ st',
    update_uptime strftime_started strftime_last cfg d edit_embed now st = (inr tt, st') ∧
    start_time st' = start_time st ∧
    (get_channel d (status_channel_id cfg) = false → st' = st) ∧
    (get_channel d (status_channel_id cfg) = true →
       ∃ x, console st' = console st ++ [x]) ∧
    (status_message st' = status_message st ∨
     (status_message st = None ∧
      fetch_message d (status_channel_id cfg) (uptime_msg_id cfg) = true ∧
      status_message st' = Some (uptime_msg_id cfg))).
Proof.
  rewrite update_uptime_eq.
  destruct (get_channel d (status_channel_id cfg)); simpl.
  - destruct (status_message st) as [msg|] eqn:Hmsg.
    + eexists. split; [done|]. simpl. split_and!; [done|done|intros _; by eexists|by left].
    + destruct (fetch_message d _ _) eqn:Hf.
      * eexists. split; [done|]. simpl. split_and!; [done|done|intros _; by eexists|by right].
      * eexists. split; [done|]. simpl. split_and!; [done|done|intros _; by eexists|by left].
  - exists st. split_and!; [done|done|done|done|by left].
Qed.

Lemma uptime_ticks_cons (cfg : Config) (t : Tick) (ticks : list Tick) (st : Status) :
  uptime_ticks strftime_started strftime_last cfg (t :: ticks) st =
  uptime_ticks strftime_started strftime_last cfg ticks
    (update_uptime strftime_started strftime_last cfg (tick_discord t) (tick_edit t) (tick_now t) st).2.
Proof. done. Qed.

(** X16. Once the status message is cached it is never fetched again:
    over any number of runs the cache stays the same, every edit goes to
    that message, and the only error ever printed is that of the edit. *)
Theorem status_message_fetched_once (cfg : Config) (ticks : list Tick)
    (st : Status) (msg : Z) :
  status_message st = Some msg →
  let st' := uptime_ticks strftime_started strftime_last cfg ticks st in
  status_message st' = Some msg ∧
  ∃ added,
    console st' = console st ++ added ∧
    Forall (λ x, (∃ e, x = StatusEdit msg e) ∨
                 x = StatusPrint "❌ Uptime update error: " HTTPException) added.
Proof.
  simpl. revert st. induction ticks as [|t ticks IH]; intros st Hmsg.
  - split; [done|]. exists []. split; [by rewrite app_nil_r|constructor].
  - rewrite uptime_ticks_cons, update_uptime_eq, Hmsg.
    destruct (get_channel (tick_discord t) _); simpl.
    + destruct (IH (mkStatus (start_time st) (Some msg)
                (console st ++
                 [if tick_edit t msg (uptime_embed strftime_started strftime_last cfg (start_time st) (tick_now t))
                  then StatusEdit msg (uptime_embed strftime_started strftime_last cfg (start_time st) (tick_now t))
                  else StatusPrint "❌ Uptime update error: " HTTPException])))
        as (Hm & added & Hc & Hall); [done|].
      split; [done|]. eexists (_ :: added). split.
      * rewrite Hc. simpl. by rewrite <- app_assoc.
      * constructor; [|done]. destruct (tick_edit t msg _); [left; by eexists|by right].
    + by apply IH.
Qed.


End UptimeProofs.

(** ** The role check *)

(** X18. The role check passes exactly when some role name of the
    member lower-cases to "root" or "mod"; hence it does not depend on the
    order of the roles and gaining roles never loses access; a command
    behind a failed check does not run, the world is unchanged. *)
Theorem role_check (lower : string → string) (role_names role_names' : list string)
    (A : Type) (command : M A) (w : World) :
  (has_required_role lower role_names = true ↔
   ∃ r, r ∈ role_names ∧ (lower r = "root" ∨ lower r = "mod")) ∧
  (role_names ⊆ role_names' →
   has_required_role lower role_names = true →
   has_required_role lower role_names' = true) ∧
  (has_required_role lower role_names = false →
   checked lower role_names command w = (inr None, w)).
Proof.
  assert (Hiff : ∀ l, has_required_role lower l = true ↔
    ∃ r, r ∈ l ∧ (lower r = "root" ∨ lower r = "mod")).
  { intros l. unfold has_required_role. rewrite existsb_exists. split.
    - intros (x & Hx & Hdec). apply list_elem_of_In, list_elem_of_fmap in Hx as (r & -> & Hr).
      apply bool_decide_eq_true in Hdec. exists r. split; [done|].
      unfold allowed_roles in Hdec. set_solver.
    - intros (r & Hr & Hl). exists (lower r). split.
      + apply list_elem_of_In, list_elem_of_fmap. by exists r.
      + apply bool_decide_eq_true. unfold allowed_roles. set_solver. }
  split_and!; [apply Hiff| |].
  - intros Hsub (r & Hr & Hl)%Hiff. apply Hiff. exists r. split; [set_solver|done].
  - intros Hno. unfold checked. by rewrite Hno.
Qed.

(** ** Start-up *)

Section StartupMore.

Variable py_int : string → option Z.

(** X19. A [STATUS_CHANNEL_ID] or [UPTIME_MSG_ID] that [int] rejects
    stops the script with an uncaught [ValueError] before the token check:
    nothing is printed and the bot does not log in, token or not. *)
Theorem bad_number_stops_startup (env : Environ) (gw : Gateway) :
  getenv_int py_int (STATUS_CHANNEL_ID env) = inl ValueError ∨
  getenv_int py_int (UPTIME_MSG_ID env) = inl ValueError →
  main py_int env gw = [Uncaught ValueError].
Proof.
  unfold main. intros [H|H].
  - by rewrite H.
  - rewrite H. destruct (getenv_int py_int (STATUS_CHANNEL_ID env)) as [e|c] eqn:Hc; [|done].
    unfold getenv_int in Hc. destruct (STATUS_CHANNEL_ID env) as [s|]; [|done].
    destruct (py_int s); [done|]. by injection Hc as <-.
Qed.

(** X20. The only loops ever started are [update_uptime] and
    [check_giveaways], and each is started exactly when the numeric
    settings parsed, a token was present, the login succeeded and the pool
    was created; the outcome of the command sync does not matter. *)
Theorem loops_started_iff (env : Environ) (gw : Gateway) (task : string) :
  StartLoop task ∈ main py_int env gw ↔
  (task = "update_uptime" ∨ task = "check_giveaways") ∧
  (∃ c, getenv_int py_int (STATUS_CHANNEL_ID env) = inr c) ∧
  (∃ m, getenv_int py_int (UPTIME_MSG_ID env) = inr m) ∧
  not_ (BOT_TOKEN env) = false ∧
  login_ok gw = true ∧
  pool_ok gw = true.
Proof.
  unfold main, on_ready.
  destruct (getenv_int py_int (STATUS_CHANNEL_ID env)) as [e|c].
  { split; [set_solver|]. by intros (_ & [? ?] & _). }
  destruct (getenv_int py_int (UPTIME_MSG_ID env)) as [e|m].
  { split; [set_solver|]. by intros (_ & _ & [? ?] & _). }
  destruct (not_ (BOT_TOKEN env)).
  { split; [set_solver|]. by intros (_ & _ & _ & ? & _). }
  destruct (login_ok gw).
  2:{ split; [set_solver|]. by intros (_ & _ & _ & _ & ? & _). }
  destruct (pool_ok gw).
  2:{ split; [set_solver|]. by intros (_ & _ & _ & _ & _ & ?). }
  split.
  - intros Hin. split_and!; try done; [|by eexists|by eexists].
    repeat (apply elem_of_cons in Hin as [Hin|Hin]; [try done|]).
    + injection Hin as ->. by left.
    + injection Hin as ->. by right.
    + by apply elem_of_nil in Hin.
  - intros ([-> | ->] & _); set_solver.
Qed.

End StartupMore.

(** ** More on starting and joining *)

Lemma store_ok_empty (q : Z) : store_ok (mkStore ∅ ∅ q).
Proof.
  split.
  - intros id [g Hg]. simpl in Hg. by rewrite lookup_empty in Hg.
  - intros p Hp. simpl in Hp. by apply elem_of_empty in Hp.
Qed.

(** X10. A giveaway started with a duration [<= 0] and a count that fits
    its column is due at once: the row it persists is selected by a scan at
    the time of the command or any later time (the clock of the bot and
    the clock of the store taken as one). *)
Theorem nonpositive_duration_due_at_once (strftime : Z → string) (d : Discord)
    (now user : Z) (display_name title_ sponsor : string) (duration : Z)
    (item : string) (winners channel : Z) (w : World) (msg : Z) :
  let end_t := now + duration * 60000000 in
  let embed :=
    started_embed strftime title_ item winners end_t sponsor display_name now in
  let id := giveaways_id_seq (db w) in
  let g := mkGiveaway msg channel end_t item winners user false in
  duration <= 0 →
  -999999999 <= duration `div` 1440 →
  datetime_min <= end_t →
  now <= datetime_max →
  channel_send d channel embed = Some msg →
  int32_min <= winners <= int32_max →
  giveaways (db w) !! id = None →
  ∀ later, now <= later →
    (id, g) ∈ select_due
      (db (epicgiveaway strftime d now user display_name title_ sponsor duration
                        item winners channel w).2) later.
Proof.
  intros end_t embed id g Hdur Hlow Hmin Hmax Hsend Hint Hfresh later Hlater.
  destruct (epicgiveaway_ok strftime d now user display_name title_ sponsor
              duration item winners channel w msg)
    as (r & w' & Hrun & Hdb & _); try done.
  - split; [done|]. Z.to_euclidean_division_equations. lia.
  - fold end_t. unfold end_t in *. lia.
  - rewrite Hrun. simpl. apply elem_of_select_due. rewrite Hdb. simpl.
    fold id g. rewrite lookup_insert_eq. split_and!; [done| |done].
    simpl. unfold end_t. lia.
Qed.

(** X8. The button handler does not look at [ended] either: a press for
    a closed giveaway is confirmed and its row inserted, although the
    giveaway is never due again, so this participant is never drawn. *)
Theorem join_after_close_accepted (w : World) (giveaway_id user_id : Z)
    (g : Giveaway) :
  giveaways (db w) !! giveaway_id = Some g →
  ended g = true →
  ∃ w',
    enter_button giveaway_id user_id w = (inr tt, w') ∧
    last (trace w') = Some (InteractionResponse "✅ You're in!") ∧
    (giveaway_id, user_id) ∈ participants (db w') ∧
    ∀ now row, (giveaway_id, row) ∉ select_due (db w') now.
Proof.
  intros Hg Hended.
  destruct (enter_button_accepts w giveaway_id user_id)
    as (w' & Hrun & Hlast & Hp & Hgs); [by rewrite Hg|].
  exists w'. split_and!; try done.
  - rewrite Hp. set_solver.
  - intros now row Hin. apply elem_of_select_due in Hin as (Hrow & _ & Hopen).
    rewrite Hgs, Hg in Hrow. injection Hrow as <-. congruence.
Qed.

(** ** The further properties at concrete inputs *)

Lemma two_due_rows :
  select_due (db Examples.two_due) 60000000 =
  [(2, Examples.skin); (1, Examples.nitro)].
Proof. by vm_compute. Qed.

Lemma two_due_counts (d : Discord) (r : Z * Giveaway) :
  r ∈ select_due (db Examples.two_due) 60000000 →
  reachable d r.2 = true → 0 <= winners_count r.2.
Proof.
  rewrite two_due_rows. intros Hr _.
  apply elem_of_cons in Hr as [->|Hr];
    [|apply list_elem_of_singleton in Hr as ->]; simpl; lia.
Qed.

Lemma two_due_rewrites :
  rewrites_accepted Cases.discord_no_channel_11 60000000 Examples.two_due.
Proof.
  unfold rewrites_accepted, attempted. vm_compute. by repeat constructor.
Qed.

Lemma store_ok_two_due : store_ok (db Examples.two_due).
Proof.
  split.
  - intros id [g Hg]. simpl in *.
    destruct (decide (1 = id)) as [<-|?]; [lia|].
    rewrite lookup_insert_ne in Hg by done.
    destruct (decide (2 = id)) as [<-|?]; [lia|].
    rewrite lookup_insert_ne in Hg by done. by rewrite lookup_empty in Hg.
  - intros p Hp. simpl in Hp.
    assert (p.1 = 1 ∨ p.1 = 2) as [-> | ->] by set_solver; by eexists.
Qed.

Lemma scan_draws_every_reachable_row_witness :
  ∃ (w' : World) (results : list Field),
    check_giveaways Cases.discord_no_channel_11 60000000 Examples.two_due =
      (inr tt, w') ∧
    length results = 1%nat ∧
    giveaways (db w') !! 2 = Some Examples.skin ∧
    giveaways (db w') !! 1 = Some (set_ended Examples.nitro).
Proof.
  destruct (scan_draws_every_reachable_row Cases.discord_no_channel_11 60000000
              Examples.two_due (two_due_counts _) two_due_rewrites)
    as (w' & results & Hrun & _ & Hfair & Hlook & _).
  exists w', results. split; [exact Hrun|]. split_and!.
  - apply Forall2_length in Hfair. rewrite <- Hfair, two_due_rows. reflexivity.
  - apply (Hlook 2 Examples.skin). rewrite two_due_rows. set_solver.
  - apply (Hlook 1 Examples.nitro). rewrite two_due_rows. set_solver.
Defined.

Lemma scan_leaves_unreachable_rows_due_witness :
  ∃ w',
    check_giveaways Cases.discord_no_channel_11 60000000 Examples.two_due =
      (inr tt, w') ∧
    (2, Examples.skin) ∈ select_due (db w') 60000000.
Proof.
  destruct (scan_leaves_unreachable_rows_due Cases.discord_no_channel_11
              60000000 Examples.two_due (two_due_counts _) two_due_rewrites)
    as (w' & Hrun & Hiff & _).
  exists w'. split; [exact Hrun|]. apply Hiff. split; [|reflexivity].
  rewrite two_due_rows. set_solver.
Defined.

Lemma giveaway_lifecycle_witness :
  store_ok (db Examples.empty) ∧
  rewrites_accepted Cases.discord_strict 60000000
    (run Examples.show_time
       ([Start Examples.discord_ok 0 50 "host" "T" "S" 1 "item" 2 10] ++
        enter_all 1 [100; 101; 100; 102])
       Examples.empty) ∧
  giveaways
    (db (run Examples.show_time
           ([Start Examples.discord_ok 0 50 "host" "T" "S" 1 "item" 2 10] ++
            enter_all 1 [100; 101; 100; 102] ++
            [Scan Cases.discord_strict 60000000])
           Examples.empty)) !! 1 =
    Some (mkGiveaway 1010 10 60000000 "item" 2 50 true).
Proof.
  assert (Hok : store_ok (db Examples.empty)) by apply store_ok_empty.
  assert (Hd : -999999999 <= 1 `div` 1440 <= 999999999) by (by vm_compute).
  assert (He : datetime_min <= 0 + 1 * 60000000 <= datetime_max)
    by (by vm_compute).
  assert (Hi : int32_min <= 2 <= int32_max) by (by vm_compute).
  assert (Hdue : 0 + 1 * 60000000 <= 60000000) by (by vm_compute).
  assert (Hrows : select_due
            (db (run Examples.show_time
                   ([Start Examples.discord_ok 0 50 "host" "T" "S" 1 "item" 2 10] ++
                    enter_all 1 [100; 101; 100; 102])
                   Examples.empty)) 60000000 =
          [(1, mkGiveaway 1010 10 60000000 "item" 2 50 false)])
    by (by vm_compute).
  assert (Hcount : ∀ r,
            r ∈ select_due
                  (db (run Examples.show_time
                         ([Start Examples.discord_ok 0 50 "host" "T" "S" 1 "item"
                                 2 10] ++
                          enter_all 1 [100; 101; 100; 102])
                         Examples.empty)) 60000000 →
            reachable Cases.discord_strict r.2 = true → 0 <= winners_count r.2).
  { rewrite Hrows. intros r Hr _. apply list_elem_of_singleton in Hr as ->.
    simpl. lia. }
  assert (Hacc : rewrites_accepted Cases.discord_strict 60000000
            (run Examples.show_time
               ([Start Examples.discord_ok 0 50 "host" "T" "S" 1 "item" 2 10] ++
                enter_all 1 [100; 101; 100; 102])
               Examples.empty)).
  { unfold rewrites_accepted, attempted. vm_compute. by repeat constructor. }
  split; [exact Hok|]. split; [exact Hacc|].
  destruct (giveaway_lifecycle Examples.show_time Examples.discord_ok
              Cases.discord_strict 0 60000000 50 "host" "T" "S" 1 "item" 2 10
              [100; 101; 100; 102] Examples.empty 1010
              Hok Hd He eq_refl Hi Hdue eq_refl Hcount Hacc) as [Hrow _].
  exact Hrow.
Defined.

Lemma result_raises_only_for_negative_count_witness :
  result_field [] (-1) Examples.negative = (inl ValueError, Examples.negative) ∧
  -1 < 0.
Proof.
  split; [reflexivity|].
  destruct (result_raises_only_for_negative_count [] (-1) Examples.negative
              Examples.negative ValueError eq_refl) as [Hneg _].
  exact Hneg.
Defined.

Lemma enter_unknown_giveaway_witness :
  giveaways (db Examples.two_due) !! 9 = None ∧
  enter_button 9 100 Examples.two_due =
    (inl ForeignKeyViolationError, Examples.two_due).
Proof.
  split; [reflexivity|].
  exact (enter_unknown_giveaway Examples.two_due 9 100 store_ok_two_due eq_refl).
Defined.

Lemma join_after_close_accepted_witness :
  ended (set_ended Examples.nitro) = true ∧
  ∃ w',
    enter_button 1 555
      (closed 1 Examples.nitro not_enough Examples.two_due) = (inr tt, w') ∧
    (1, 555) ∈ participants (db w').
Proof.
  split; [reflexivity|].
  destruct (join_after_close_accepted
              (closed 1 Examples.nitro not_enough Examples.two_due) 1 555
              (set_ended Examples.nitro) eq_refl eq_refl)
    as (w' & Hrun & _ & Hin & _).
  exists w'. by split.
Defined.

Lemma start_failure_after_acknowledgement_witness :
  ∃ e w',
    epicgiveaway Examples.show_time Cases.discord_no_send 0 50 "host" "T" "S"
                 5 "item" 1 10 Examples.empty = (inl e, w') ∧
    db w' = db Examples.empty ∧
    trace w' = [InteractionResponse "🎉 Giveaway started in <#10>!"].
Proof.
  destruct (start_failure_after_acknowledgement Examples.show_time
              Cases.discord_no_send 0 50 "host" "T" "S" 5 "item" 1 10
              Examples.empty (or_intror (or_intror eq_refl)))
    as (e & w' & Hrun & _ & Hdb & Htr).
  exists e, w'. by split_and!.
Defined.

Lemma nonpositive_duration_due_at_once_witness :
  -5 <= 0 ∧
  (1, mkGiveaway 1010 10 (-300000000) "item" 1 50 false) ∈
    select_due
      (db (epicgiveaway Examples.show_time Examples.discord_ok 0 50 "host" "T"
                        "S" (-5) "item" 1 10 Examples.empty).2) 0.
Proof.
  assert (Hdur : -5 <= 0) by lia.
  split; [exact Hdur|].
  assert (Hlow : -999999999 <= (-5) `div` 1440) by (by vm_compute).
  assert (Hmin : datetime_min <= 0 + (-5) * 60000000) by (by vm_compute).
  assert (Hmax : 0 <= datetime_max) by (by vm_compute).
  assert (Hint : int32_min <= 1 <= int32_max) by (by vm_compute).
  assert (Hlater : 0 <= 0) by lia.
  exact (nonpositive_duration_due_at_once Examples.show_time Examples.discord_ok
           0 50 "host" "T" "S" (-5) "item" 1 10 Examples.empty 1010
           Hdur Hlow Hmin Hmax eq_refl Hint eq_refl 0 Hlater).
Defined.

Lemma store_invariants_witness :
  store_ok (db Examples.empty) ∧
  giveaways
    (db (run Examples.show_time
           [Start Examples.discord_ok 0 50 "host" "T" "S" 1 "item" 2 10;
            Enter 1 100; Enter 7 100; Scan Examples.discord_ok 60000000;
            Start Examples.discord_ok 0 50 "host" "U" "S" 1 "key" 1 11]
           Examples.empty)) !! 3 = None.
Proof.
  assert (Hok : store_ok (db Examples.empty)) by apply store_ok_empty.
  split; [exact Hok|].
  destruct (store_invariants Examples.show_time
              [Start Examples.discord_ok 0 50 "host" "T" "S" 1 "item" 2 10;
               Enter 1 100; Enter 7 100; Scan Examples.discord_ok 60000000;
               Start Examples.discord_ok 0 50 "host" "U" "S" 1 "key" 1 11]
              Examples.empty Hok) as (_ & Hfree & _).
  exact Hfree.
Defined.

Lemma participants_only_grow_witness :
  (1, 100) ∈ participants (db Examples.two_due) ∧
  (1, 100) ∈
    participants
      (db (run Examples.show_time
             [Scan Examples.discord_ok 60000000; Enter 2 7;
              Start Examples.discord_ok 0 50 "host" "T" "S" 1 "item" 2 10]
             Examples.two_due)).
Proof.
  assert (Hin : (1, 100) ∈ participants (db Examples.two_due))
    by (simpl; set_solver).
  split; [exact Hin|].
  destruct (participants_only_grow Examples.show_time
              [Scan Examples.discord_ok 60000000; Enter 2 7;
               Start Examples.discord_ok 0 50 "host" "T" "S" 1 "item" 2 10]
              Examples.two_due) as [Hsub _].
  exact (Hsub _ Hin).
Defined.

Lemma format_uptime_length_witness :
  0 <= 93784000000 - 0 < 100 * 86400000000 ∧
  String.length (format_uptime (datetime_sub 93784000000 0)) = 15%nat.
Proof.
  assert (H : 0 <= 93784000000 - 0 < 100 * 86400000000) by lia.
  split; [exact H|]. exact (format_uptime_length 0 93784000000 H).
Defined.

Lemma update_uptime_never_raises_witness :
  ∃ st',
    update_uptime Examples.show_time Examples.show_time Cases.config
      (tick_discord Cases.status_gone) (tick_edit Cases.status_gone)
      93784000000 Cases.status0 = (inr tt, st') ∧
    status_message st' = None.
Proof.
  destruct (update_uptime_never_raises Examples.show_time Examples.show_time
              Cases.config (tick_discord Cases.status_gone)
              (tick_edit Cases.status_gone) 93784000000 Cases.status0)
    as (st' & Hrun & _ & _ & _ & [Hsame|(_ & Hf & _)]).
  - exists st'. split; [exact Hrun|exact Hsame].
  - discriminate Hf.
Defined.

Lemma status_message_fetched_once_witness :
  status_message
    (uptime_ticks Examples.show_time Examples.show_time Cases.config
       [Cases.status_gone; Cases.status_ok; Cases.status_gone]
       (mkStatus 0 (Some 42) [])) = Some 42.
Proof.
  destruct (status_message_fetched_once Examples.show_time Examples.show_time
              Cases.config
              [Cases.status_gone; Cases.status_ok; Cases.status_gone]
              (mkStatus 0 (Some 42) []) 42 eq_refl) as [Hcache _].
  exact Hcache.
Defined.


Lemma role_check_witness :
  has_required_role Cases.ascii_lower ["Member"; "MOD"] = true ∧
  has_required_role Cases.ascii_lower ["MOD"; "Booster"; "Member"] = true.
Proof.
  split; [reflexivity|].
  destruct (role_check Cases.ascii_lower ["Member"; "MOD"]
              ["MOD"; "Booster"; "Member"] unit (ret tt) Examples.empty)
    as (_ & Hmono & _).
  apply Hmono; [set_solver|reflexivity].
Defined.

Lemma bad_number_stops_startup_witness :
  getenv_int Examples.decimal (STATUS_CHANNEL_ID Cases.bad_channel_id) =
    inl ValueError ∧
  main Examples.decimal Cases.bad_channel_id Examples.gateway_ok =
    [Uncaught ValueError].
Proof.
  split; [reflexivity|].
  exact (bad_number_stops_startup Examples.decimal Cases.bad_channel_id
           Examples.gateway_ok (or_introl eq_refl)).
Defined.

Lemma loops_started_iff_witness :
  StartLoop "check_giveaways" ∈
    main Examples.decimal Examples.no_database_url Cases.gateway_no_sync.
Proof.
  apply (loops_started_iff Examples.decimal Examples.no_database_url
           Cases.gateway_no_sync "check_giveaways").
  split_and!; [by right|by exists 42|by exists 0|reflexivity..].
Defined.
